(** * waifu-bot: the persistence layer ([database.py])

    A shallow embedding of the [Database] class: the crystal ledger kept in
    the [users] table, the profile and rarity tables, and the rarity count
    read over the card ownership join.

    Modelling choices.
    - Python integers are [Z].  The engine keeps an INTEGER in 64 bits.  A
      sum it computes with [+] is the integer sum as long as it stays in
      that range, and the statements about such sums say so in a
      hypothesis ([exact_sum], [int64]); past the range the engine goes
      over to floating point, which is not modelled.  [SUM] fails once a
      running sum leaves the range, and is modelled with that failure.
    - Text is [string], compared byte by byte: on UTF-8 text this is the
      order of Python's [str] and of SQLite's BINARY collation.  A nullable
      column or a parameter that may be [None] is an [option].
    - Every table with a primary key is a finite map from the key to the
      remaining columns, so a row exists for a key exactly when the lookup
      succeeds.  Callers pass values of the declared column types.
    - The object holds one connection, so a statement sees every earlier
      write; [commit] is therefore not a separate step of the model.
      SQLite does not enforce the [FOREIGN KEY] clauses unless asked to, and
      the class never asks.
    - A method is a computation in a state-and-exception monad over the
      store; an exception of the driver ends the computation. *)

From Stdlib Require Import ZArith String Ascii List Lia Bool DecimalString.
From stdpp Require Import base option gmap strings list fin_maps.
Import ListNotations.

Local Open Scope Z_scope.
Local Open Scope string_scope.

(** ** The driver: exceptions, the monad, identifiers *)

Module Sqlite.

(** The exception [sqlite3] raises when the engine cannot prepare a
    statement, as for a column name it does not know. *)
Inductive exn : Type :=
  | OperationalError.

Inductive result (A : Type) : Type :=
  | Ok (a : A)
  | Raise (e : exn).
Arguments Ok {A} a.
Arguments Raise {A} e.

(** In SQL text an identifier is matched without regard to ASCII case. *)
Definition lower_ascii (c : ascii) : ascii :=
  let n := nat_of_ascii c in
  if ((65 <=? n) && (n <=? 90))%nat then ascii_of_nat (n + 32) else c.

Fixpoint lower (s : string) : string :=
  match s with
  | EmptyString => EmptyString
  | String c s' => String (lower_ascii c) (lower s')
  end.

Definition ident_eqb (a b : string) : bool := String.eqb (lower a) (lower b).

(** Letters, digits and the underscore: text that, spliced into a statement
    where a column name is expected, stays one token. *)
Definition word_char (c : ascii) : bool :=
  let n := nat_of_ascii c in
  (((48 <=? n) && (n <=? 57)) || ((65 <=? n) && (n <=? 90))
   || ((97 <=? n) && (n <=? 122)) || (n =? 95))%nat.

Fixpoint is_word (s : string) : bool :=
  match s with
  | EmptyString => true
  | String c s' => word_char c && is_word s'
  end.

End Sqlite.
Export Sqlite.

(** ** The tables *)

(** [users]: the key is [user_id]. *)
Record user_row : Type := {
  username : option string;
  first_name : option string;
  language : option string;
  joined_at : option string;
  daily_crystals : Z;
  weekly_crystals : Z;
  monthly_crystals : Z;
  daily_claim : option string;
  weekly_claim : option string;
  monthly_claim : option string;
  first_logged : Z
}.

(** [user_profiles]: the key is [user_id]. *)
Record profile_row : Type := {
  level : Z;
  rank : string;
  badge : string;
  total_collected : Z;
  progress : Z;
  balance : Z;
  global_position : string
}.

(** [waifu_cards]: the key is [id]; of the other columns only [rarity] is
    read by this class. *)
Record card_row : Type := {
  card_name : option string;
  card_rarity : option string
}.

(** Modelled from the spec: the [user_waifus] ownership table is created
    elsewhere in the repository; [get_user_rarity_count] reads its columns
    [user_id], [waifu_id] and [amount].  It has no key known here, so it is a
    list of rows. *)
Record ownership_row : Type := {
  uw_user_id : Z;
  uw_waifu_id : Z;
  uw_amount : option Z
}.

Record db : Type := {
  users : gmap Z user_row;
  user_profiles : gmap Z profile_row;
  user_rarities : gmap (Z * string) Z;
  waifu_cards : gmap Z card_row;
  user_waifus : list ownership_row
}.

Definition empty_db : db :=
  {| users := ∅; user_profiles := ∅; user_rarities := ∅;
     waifu_cards := ∅; user_waifus := [] |}.

Definition with_users (f : gmap Z user_row → gmap Z user_row) (d : db) : db :=
  {| users := f (users d); user_profiles := user_profiles d;
     user_rarities := user_rarities d; waifu_cards := waifu_cards d;
     user_waifus := user_waifus d |}.

Definition with_user_profiles
    (f : gmap Z profile_row → gmap Z profile_row) (d : db) : db :=
  {| users := users d; user_profiles := f (user_profiles d);
     user_rarities := user_rarities d; waifu_cards := waifu_cards d;
     user_waifus := user_waifus d |}.

Definition with_user_rarities
    (f : gmap (Z * string) Z → gmap (Z * string) Z) (d : db) : db :=
  {| users := users d; user_profiles := user_profiles d;
     user_rarities := f (user_rarities d); waifu_cards := waifu_cards d;
     user_waifus := user_waifus d |}.

(** ** The monad of the methods *)

Definition M (A : Type) : Type := db → result (A * db).

#[export] Instance M_ret : MRet M := λ A a d, Ok (a, d).

#[export] Instance M_bind : MBind M := λ A B f m d,
  match m d with
  | Ok (a, d') => f a d'
  | Raise e => Raise e
  end.

Definition raise {A : Type} (e : exn) : M A := λ _, Raise e.
Definition query {A : Type} (f : db → A) : M A := λ d, Ok (f d, d).
Definition execute (f : db → db) : M unit := λ d, Ok (tt, f d).

Fixpoint for_each {A : Type} (l : list A) (body : A → M unit) : M unit :=
  match l with
  | [] => mret tt
  | x :: l' => body x;; for_each l' body
  end.

(** ** Statements over [users] whose column name is spliced into the text

    [add_crystals], [get_last_claim] and [update_last_claim] build the column
    name with an f-string.  The engine resolves the name against the columns
    of [users] when it prepares the statement, whether or not a row matches,
    and refuses a name it does not know.  Of the columns of [users] three end
    in [_crystals] and three in [_claim], so these are the only columns such
    a name can denote.  A [claim_type] that is not a word would change the
    shape of the statement itself; the embedding covers the words. *)

Inductive crystal_column : Type := DailyCrystals | WeeklyCrystals | MonthlyCrystals.
Inductive claim_column : Type := DailyClaim | WeeklyClaim | MonthlyClaim.

Definition crystal_column_of (col : string) : option crystal_column :=
  if ident_eqb col "daily_crystals" then Some DailyCrystals
  else if ident_eqb col "weekly_crystals" then Some WeeklyCrystals
  else if ident_eqb col "monthly_crystals" then Some MonthlyCrystals
  else None.

Definition claim_column_of (col : string) : option claim_column :=
  if ident_eqb col "daily_claim" then Some DailyClaim
  else if ident_eqb col "weekly_claim" then Some WeeklyClaim
  else if ident_eqb col "monthly_claim" then Some MonthlyClaim
  else None.

(** [col = col + ?], the sum taken as the integer sum: this is what the
    engine stores as long as the sum is in the 64-bit range. *)
Definition add_to (c : crystal_column) (v : Z) (r : user_row) : user_row :=
  {| username := username r; first_name := first_name r;
     language := language r; joined_at := joined_at r;
     daily_crystals :=
       match c with DailyCrystals => daily_crystals r + v | _ => daily_crystals r end;
     weekly_crystals :=
       match c with WeeklyCrystals => weekly_crystals r + v | _ => weekly_crystals r end;
     monthly_crystals :=
       match c with MonthlyCrystals => monthly_crystals r + v | _ => monthly_crystals r end;
     daily_claim := daily_claim r; weekly_claim := weekly_claim r;
     monthly_claim := monthly_claim r; first_logged := first_logged r |}.

Definition get_claim (c : claim_column) (r : user_row) : option string :=
  match c with
  | DailyClaim => daily_claim r
  | WeeklyClaim => weekly_claim r
  | MonthlyClaim => monthly_claim r
  end.

Definition set_claim (c : claim_column) (t : option string) (r : user_row) : user_row :=
  {| username := username r; first_name := first_name r;
     language := language r; joined_at := joined_at r;
     daily_crystals := daily_crystals r; weekly_crystals := weekly_crystals r;
     monthly_crystals := monthly_crystals r;
     daily_claim := match c with DailyClaim => t | _ => daily_claim r end;
     weekly_claim := match c with WeeklyClaim => t | _ => weekly_claim r end;
     monthly_claim := match c with MonthlyClaim => t | _ => monthly_claim r end;
     first_logged := first_logged r |}.

(** [UPDATE users SET {col} = {col} + ? WHERE user_id = ?] *)
Definition update_users_add (col : string) (v user_id : Z) : M unit :=
  match crystal_column_of col with
  | Some c => execute (with_users (alter (add_to c v) user_id))
  | None => raise OperationalError
  end.

(** [UPDATE users SET {col} = ? WHERE user_id = ?] *)
Definition update_users_set (col : string) (t : option string) (user_id : Z) : M unit :=
  match claim_column_of col with
  | Some c => execute (with_users (alter (set_claim c t) user_id))
  | None => raise OperationalError
  end.

(** [SELECT {col} FROM users WHERE user_id = ?], then [fetchone()] *)
Definition select_users_claim (col : string) (user_id : Z) : M (option (option string)) :=
  match claim_column_of col with
  | Some c => query (λ d, get_claim c <$> users d !! user_id)
  | None => raise OperationalError
  end.

(** ** Python helpers *)

(** Truth value of a [str] or [None]. *)
Definition truthy (ts : option string) : bool :=
  match ts with
  | Some s => negb (String.eqb s "")
  | None => false
  end.

(** The range of an SQLite INTEGER. *)
Definition in_int64 (z : Z) : bool :=
  Z.leb (- 2 ^ 63) z && Z.ltb z (2 ^ 63).

(** [max] of a sequence with first element [x]: the running maximum is
    replaced only by a strictly greater item. *)
Definition py_max (x : string) (xs : list string) : string :=
  fold_left (λ m y, if String.ltb m y then y else m) xs x.

(** ** The methods of [Database] *)

Module Database.

(** *** User management *)

(** [now] is the engine's [CURRENT_TIMESTAMP] when the row is inserted. *)
Definition add_user (now : string) (user_id : Z)
    (username first_name : option string) : M unit :=
  execute (with_users (λ t,
    match t !! user_id with
    | Some _ => t
    | None =>
        <[user_id :=
            {| username := username; first_name := first_name;
               language := Some "en"; joined_at := Some now;
               daily_crystals := 0; weekly_crystals := 0; monthly_crystals := 0;
               daily_claim := None; weekly_claim := None; monthly_claim := None;
               first_logged := 0 |}]> t
    end)).

Definition is_first_logged (user_id : Z) : M bool :=
  row ← query (λ d, users d !! user_id);
  mret (match row with Some r => Z.eqb (first_logged r) 1 | None => false end).

Definition set_first_logged (user_id : Z) : M unit :=
  execute (with_users (alter (λ r,
    {| username := username r; first_name := first_name r;
       language := language r; joined_at := joined_at r;
       daily_crystals := daily_crystals r; weekly_crystals := weekly_crystals r;
       monthly_crystals := monthly_crystals r;
       daily_claim := daily_claim r; weekly_claim := weekly_claim r;
       monthly_claim := monthly_claim r; first_logged := 1 |}) user_id)).

(** *** Crystal management *)

Definition categories : list string := ["daily"; "weekly"; "monthly"].

Definition py_in (k : string) (l : list string) : bool := existsb (String.eqb k) l.

(** [kwargs] in the order the caller wrote them. *)
Definition add_crystals (user_id : Z) (kwargs : list (string * Z)) : M unit :=
  for_each kwargs (λ '(k, v),
    if py_in k categories then
      let col := k ++ "_crystals" in
      update_users_add col v user_id
    else mret tt).

(** The last two assignments of [get_crystals]: the truthy timestamps, then
    their [max], or [None] when there is none. *)
Definition latest (claims : list (option string)) : option string :=
  let timestamps := omap id (List.filter truthy claims) in
  match timestamps with
  | [] => None
  | x :: xs => Some (py_max x xs)
  end.

Definition get_crystals (user_id : Z) : M (Z * Z * Z * Z * option string) :=
  row ← query (λ d, users d !! user_id);
  match row with
  | None => mret (0, 0, 0, 0, None)
  | Some r =>
      let daily := daily_crystals r in
      let weekly := weekly_crystals r in
      let monthly := monthly_crystals r in
      let total := daily + weekly + monthly in
      let last_claim := latest [daily_claim r; weekly_claim r; monthly_claim r] in
      mret (daily, weekly, monthly, total, last_claim)
  end.

Definition get_last_claim (user_id : Z) (claim_type : string) : M (option string) :=
  let col := claim_type ++ "_claim" in
  result ← select_users_claim col user_id;
  mret (match result with Some v => v | None => None end).

Definition update_last_claim (user_id : Z) (claim_type : string)
    (time_iso : option string) : M unit :=
  let col := claim_type ++ "_claim" in
  update_users_set col time_iso user_id.

(** *** Profile system *)

(** What [get_user_profile] returns: the seven columns and, under the key
    [rarities], the counts per rarity. *)
Record profile : Type := {
  fields : profile_row;
  rarities : gmap string Z
}.

(** [SELECT rarity, count FROM user_rarities WHERE user_id = ?] *)
Definition select_rarities (user_id : Z) (t : gmap (Z * string) Z) : list (string * Z) :=
  omap (λ '((u, r), c), if decide (u = user_id) then Some (r, c) else None)
       (map_to_list t).

Definition get_user_profile (user_id : Z) : M (option profile) :=
  row ← query (λ d, user_profiles d !! user_id);
  match row with
  | None => mret None
  | Some r =>
      rows ← query (λ d, select_rarities user_id (user_rarities d));
      mret (Some {| fields := r; rarities := list_to_map rows |})
  end.

(** The keyword arguments of [add_or_update_profile] that reach the
    statement; a field is [None] when the caller left it out. *)
Record profile_kwargs : Type := {
  kw_level : option Z;
  kw_rank : option string;
  kw_badge : option string;
  kw_total_collected : option Z;
  kw_progress : option Z;
  kw_balance : option Z;
  kw_global_position : option string
}.

Definition no_kwargs : profile_kwargs :=
  {| kw_level := None; kw_rank := None; kw_badge := None;
     kw_total_collected := None; kw_progress := None; kw_balance := None;
     kw_global_position := None |}.

Definition defaults : profile_row :=
  {| level := 1; rank := "Newbie"; badge := "None"; total_collected := 0;
     progress := 0; balance := 0; global_position := "Unranked" |}.

(** [defaults.update(kwargs)] *)
Definition dict_update (dflt : profile_row) (kwargs : profile_kwargs) : profile_row :=
  {| level := default (level dflt) (kw_level kwargs);
     rank := default (rank dflt) (kw_rank kwargs);
     badge := default (badge dflt) (kw_badge kwargs);
     total_collected := default (total_collected dflt) (kw_total_collected kwargs);
     progress := default (progress dflt) (kw_progress kwargs);
     balance := default (balance dflt) (kw_balance kwargs);
     global_position := default (global_position dflt) (kw_global_position kwargs) |}.

(** [ON CONFLICT(user_id) DO UPDATE SET level = excluded.level, ...] *)
Definition do_update_set (stored excluded : profile_row) : profile_row :=
  {| level := level excluded; rank := rank excluded; badge := badge excluded;
     total_collected := total_collected excluded; progress := progress excluded;
     balance := balance excluded; global_position := global_position excluded |}.

Definition add_or_update_profile (user_id : Z) (kwargs : profile_kwargs) : M unit :=
  let dflt := dict_update defaults kwargs in
  execute (with_user_profiles (λ t,
    match t !! user_id with
    | None => <[user_id := dflt]> t
    | Some stored => <[user_id := do_update_set stored dflt]> t
    end)).

(** [INSERT ... ON CONFLICT(user_id, rarity) DO UPDATE SET
    count = count + excluded.count], the sum taken as the integer sum: this
    is what the engine stores as long as the sum is in the 64-bit range. *)
Definition update_user_rarity (user_id : Z) (rarity : string) (count : Z) : M unit :=
  execute (with_user_rarities (λ t,
    match t !! (user_id, rarity) with
    | None => <[(user_id, rarity) := count]> t
    | Some stored => <[(user_id, rarity) := stored + count]> t
    end)).

(** *** Rarity count over the ownership join *)

(** [user_waifus uw JOIN waifu_cards wc ON uw.waifu_id = wc.id] *)
Definition join_on_waifu_id (d : db) : list (ownership_row * (Z * card_row)) :=
  uw ← user_waifus d;
  wc ← map_to_list (waifu_cards d);
  if decide (uw_waifu_id uw = wc.1) then [(uw, wc)] else [].

(** [SUM] adds the values one by one, as the rows come, and the statement
    fails with "integer overflow" once a running sum leaves the 64-bit
    range. *)
Fixpoint sum_from (acc : Z) (vs : list Z) : result Z :=
  match vs with
  | [] => Ok acc
  | v :: vs' =>
      if in_int64 (acc + v) then sum_from (acc + v) vs' else Raise OperationalError
  end.

(** [SUM]: NULL values are skipped; no value at all gives NULL. *)
Definition sql_sum (l : list (option Z)) : result (option Z) :=
  match omap id l with
  | [] => Ok None
  | vs =>
      match sum_from 0 vs with
      | Ok n => Ok (Some n)
      | Raise e => Raise e
      end
  end.

(** A query the engine may refuse. *)
Definition fetch {A : Type} (f : db → result A) : M A := λ d,
  match f d with
  | Ok a => Ok (a, d)
  | Raise e => Raise e
  end.

Definition get_user_rarity_count (user_id : Z) (rarity : string) : M Z :=
  result ← fetch (λ d,
    sql_sum
      ((λ row, uw_amount row.1) <$>
         List.filter
           (λ row, bool_decide (uw_user_id row.1 = user_id
                                ∧ card_rarity row.2.2 = Some rarity))
           (join_on_waifu_id d)));
  mret (match result with Some n => n | None => 0 end).

End Database.

(** ** Groups and the event log

    [add_group], [get_total_groups] and [log_event] read and write the
    tables [groups] and [logs] only, and no other method touches these two
    tables; they are kept in a state of their own.  None of the three
    statements can be refused, so the methods are plain functions on that
    state. *)

Module Bookkeeping.

(** [groups]: the key is [chat_id]. *)
Record group_row : Type := {
  title : option string;
  added_at : option string
}.

(** [logs]: [id] is an AUTOINCREMENT key. *)
Record log_row : Type := {
  log_id : Z;
  event_type : string;
  log_user_id : option Z;
  log_chat_id : option Z;
  details : option string;
  timestamp : option string
}.

(** [logs_seq] is the largest [id] the table ever had, which the engine
    keeps for an AUTOINCREMENT key (0 before the first row). *)
Record journal : Type := {
  groups : gmap Z group_row;
  logs : list log_row;
  logs_seq : Z
}.

Definition empty_journal : journal := {| groups := ∅; logs := []; logs_seq := 0 |}.

(** [now] is the engine's [CURRENT_TIMESTAMP], as in [add_user]. *)
Definition add_group (now : string) (chat_id : Z) (title : option string)
    (j : journal) : journal :=
  {| groups :=
       match groups j !! chat_id with
       | Some _ => groups j
       | None => <[chat_id := {| title := title; added_at := Some now |}]> (groups j)
       end;
     logs := logs j; logs_seq := logs_seq j |}.

(** [SELECT COUNT( * ) FROM groups] *)
Definition get_total_groups (j : journal) : Z := Z.of_nat (size (groups j)).

(** The key the engine gives the next row: one more than the largest key
    in the table and than the largest key there ever was. *)
Definition next_log_id (j : journal) : Z :=
  Z.max (logs_seq j) (foldr Z.max 0 (log_id <$> logs j)) + 1.

Definition log_event (now : string) (event_type : string)
    (user_id chat_id : option Z) (details : option string) (j : journal) : journal :=
  let id := next_log_id j in
  {| groups := groups j;
     logs := logs j ++ [{| log_id := id; event_type := event_type;
                           log_user_id := user_id; log_chat_id := chat_id;
                           details := details; timestamp := Some now |}];
     logs_seq := id |}.

End Bookkeeping.

(** ** Schema bootstrap

    What [__init__] does to the schema: [setup] and [setup_profile_tables]
    create the five tables where they are missing, and [_add_missing_column]
    patches four columns onto a [users] table that lacks them.  A table is
    the list of its columns, each a name with its declaration, in the order
    [PRAGMA table_info] lists them; a name that is absent is no table.  The
    statements here change no row of a table that exists, except that
    [ADD COLUMN] gives the new column its default in every row. *)

Module Bootstrap.

Definition column : Type := string * string.

Record schema : Type := {
  users_table : option (list column);
  groups_table : option (list column);
  logs_table : option (list column);
  user_profiles_table : option (list column);
  user_rarities_table : option (list column)
}.

Definition no_tables : schema :=
  {| users_table := None; groups_table := None; logs_table := None;
     user_profiles_table := None; user_rarities_table := None |}.

Definition users_columns : list column :=
  [("user_id", "INTEGER PRIMARY KEY"); ("username", "TEXT");
   ("first_name", "TEXT"); ("language", "TEXT DEFAULT 'en'");
   ("joined_at", "TIMESTAMP DEFAULT CURRENT_TIMESTAMP");
   ("daily_crystals", "INTEGER DEFAULT 0"); ("weekly_crystals", "INTEGER DEFAULT 0");
   ("monthly_crystals", "INTEGER DEFAULT 0"); ("daily_claim", "TEXT");
   ("weekly_claim", "TEXT"); ("monthly_claim", "TEXT");
   ("first_logged", "INTEGER DEFAULT 0")].

Definition groups_columns : list column :=
  [("chat_id", "INTEGER PRIMARY KEY"); ("title", "TEXT");
   ("added_at", "TIMESTAMP DEFAULT CURRENT_TIMESTAMP")].

Definition logs_columns : list column :=
  [("id", "INTEGER PRIMARY KEY AUTOINCREMENT"); ("event_type", "TEXT");
   ("user_id", "INTEGER"); ("chat_id", "INTEGER"); ("details", "TEXT");
   ("timestamp", "TIMESTAMP DEFAULT CURRENT_TIMESTAMP")].

Definition user_profiles_columns : list column :=
  [("user_id", "INTEGER PRIMARY KEY"); ("level", "INTEGER DEFAULT 1");
   ("rank", "TEXT DEFAULT 'Newbie'"); ("badge", "TEXT DEFAULT 'None'");
   ("total_collected", "INTEGER DEFAULT 0"); ("progress", "INTEGER DEFAULT 0");
   ("balance", "INTEGER DEFAULT 0"); ("global_position", "TEXT DEFAULT 'Unranked'")].

Definition user_rarities_columns : list column :=
  [("user_id", "INTEGER"); ("rarity", "TEXT"); ("count", "INTEGER DEFAULT 0")].

(** The monad of the bootstrap: the schema as state, the driver's
    exceptions. *)
Definition Boot (A : Type) : Type := schema → result (A * schema).

#[export] Instance Boot_ret : MRet Boot := λ A a s, Ok (a, s).

#[export] Instance Boot_bind : MBind Boot := λ A B f m s,
  match m s with
  | Ok (a, s') => f a s'
  | Raise e => Raise e
  end.

Fixpoint for_each_column (l : list string) (body : string → Boot unit) : Boot unit :=
  match l with
  | [] => mret tt
  | x :: l' => body x;; for_each_column l' body
  end.

(** [CREATE TABLE IF NOT EXISTS]: a table that exists is left as it is. *)
Definition create_if_not_exists (declared : list column)
    (t : option (list column)) : option (list column) :=
  match t with
  | Some cols => Some cols
  | None => Some declared
  end.

(** [PRAGMA table_info(users)], then the names: no row for a table that
    does not exist. *)
Definition table_info_names (t : option (list column)) : list string :=
  match t with
  | Some cols => cols.*1
  | None => []
  end.

(** [ALTER TABLE users ADD COLUMN name decl]: refused when there is no such
    table, and when the table has a column of that name, letter case
    disregarded; otherwise the column comes last. *)
Definition alter_users_add_column (name decl : string) : Boot unit := λ s,
  match users_table s with
  | None => Raise OperationalError
  | Some cols =>
      if existsb (ident_eqb name) cols.*1 then Raise OperationalError
      else Ok (tt, {| users_table := Some (cols ++ [(name, decl)])%list;
                      groups_table := groups_table s; logs_table := logs_table s;
                      user_profiles_table := user_profiles_table s;
                      user_rarities_table := user_rarities_table s |})
  end.

(** The names [setup] passes are plain identifiers; the embedding covers
    these. *)
Definition _add_missing_column (column_name : string) : Boot unit :=
  columns ← (λ s, Ok (table_info_names (users_table s), s)) : Boot (list string);
  if negb (Database.py_in column_name columns) then
    if String.eqb column_name "first_logged" then
      alter_users_add_column column_name "INTEGER DEFAULT 0"
    else
      alter_users_add_column column_name "TEXT"
  else mret tt.

Definition legacy_columns : list string :=
  ["daily_claim"; "weekly_claim"; "monthly_claim"; "first_logged"].

Definition setup : Boot unit :=
  ((λ s, Ok (tt, {| users_table := create_if_not_exists users_columns (users_table s);
                    groups_table := create_if_not_exists groups_columns (groups_table s);
                    logs_table := create_if_not_exists logs_columns (logs_table s);
                    user_profiles_table := user_profiles_table s;
                    user_rarities_table := user_rarities_table s |})) : Boot unit);;
  for_each_column legacy_columns _add_missing_column.

Definition setup_profile_tables : Boot unit := λ s,
  Ok (tt, {| users_table := users_table s; groups_table := groups_table s;
             logs_table := logs_table s;
             user_profiles_table :=
               create_if_not_exists user_profiles_columns (user_profiles_table s);
             user_rarities_table :=
               create_if_not_exists user_rarities_columns (user_rarities_table s) |}).

(** [__init__], after the connection is open. *)
Definition init : Boot unit := setup;; setup_profile_tables.

End Bootstrap.

(** ** The balance command ([handlers/balance.py]) *)

Module Handlers.

(** [str] of an [int], as an f-string prints it. *)
Definition str_of_int (z : Z) : string := NilZero.string_of_int (Z.to_int z).

Definition newline : string := String (ascii_of_nat 10) EmptyString.

(** The text [balance_cmd] sends with [reply_text], for the sender's
    [user_id]. *)
Definition balance_cmd (user_id : Z) : M string :=
  crystals ← Database.get_crystals user_id;
  let '(daily, weekly, monthly, total, last_claim) := crystals in
  mret ("💎 Your crystal balance:" ++ newline ++ newline
        ++ "• Daily: " ++ str_of_int daily ++ newline
        ++ "• Weekly: " ++ str_of_int weekly ++ newline
        ++ "• Monthly: " ++ str_of_int monthly ++ newline
        ++ "• Total: " ++ str_of_int total ++ newline
        ++ "⏰ Last claim: "
        ++ (if truthy last_claim then default "" last_claim else "Never")).

End Handlers.

(** ** Vocabulary of the statements *)

Import Database.

(** [m] is a maximum of [ts]: one of them, and none is greater. *)
Definition maximum_of (m : string) (ts : list string) : Prop :=
  m ∈ ts ∧ ∀ s, s ∈ ts → String.leb s m = true.

(** The timestamps the claim speaks of: those that are set. *)
Definition non_null (claims : list (option string)) : list string := omap id claims.

Definition non_empty (ts : list string) : list string :=
  List.filter (λ s, negb (String.eqb s "")) ts.

(** [lc] is the latest of [ts]: a maximum of them, or [None] when there is
    none. *)
Definition latest_of (ts : list string) (lc : option string) : Prop :=
  match lc with
  | Some m => maximum_of m ts
  | None => ts = []
  end.

(** What one keyword of [add_crystals] does to the row of the user. *)
Definition credit (kv : string * Z) (r : user_row) : user_row :=
  if py_in kv.1 categories then
    match crystal_column_of (kv.1 ++ "_crystals") with
    | Some c => add_to c kv.2 r
    | None => r
    end
  else r.

Definition credited (kwargs : list (string * Z)) (r : user_row) : user_row :=
  fold_left (λ r kv, credit kv r) kwargs r.

(** In the spec's words: the ownership rows of the user whose card, looked
    up in the catalog by its identifier, has the given rarity; and the sum of
    their amounts, an amount that is not set counting for nothing. *)
Definition owned_of_rarity (d : db) (user_id : Z) (rarity : string) : list ownership_row :=
  List.filter
    (λ uw, bool_decide (uw_user_id uw = user_id
                        ∧ card_rarity <$> waifu_cards d !! uw_waifu_id uw
                          = Some (Some rarity)))
    (user_waifus d).

Definition owned_amount (d : db) (user_id : Z) (rarity : string) : Z :=
  foldr Z.add 0 ((λ uw, default 0 (uw_amount uw)) <$> owned_of_rarity d user_id rarity).

#[export] Instance claim_column_eq_dec : EqDecision claim_column.
Proof. solve_decision. Defined.

(** The range of an SQLite INTEGER, as a proposition. *)
Definition int64 (z : Z) : Prop := - 2 ^ 63 ≤ z < 2 ^ 63.

(** The engine's [x + y] is the integer sum: the operands and the sum are
    in range. *)
Definition exact_sum (x y : Z) : Prop := int64 x ∧ int64 y ∧ int64 (x + y).

(** The absolute amounts [add_crystals] credits, added up: a bound on
    every sum the engine forms for these keywords. *)
Definition credited_bound (kwargs : list (string * Z)) : Z :=
  foldr (λ kv acc, if py_in kv.1 categories then Z.abs kv.2 + acc else acc) 0 kwargs.

(** The counter a keyword of [add_crystals] addresses. *)
Definition counter_of (k : string) (r : user_row) : Z :=
  if String.eqb k "daily" then daily_crystals r
  else if String.eqb k "weekly" then weekly_crystals r
  else monthly_crystals r.

(** The sum of the absolute amounts of the ownership rows that count: when
    it is in range, so is every running sum, in whatever order the engine
    scans the rows. *)
Definition owned_bound (d : db) (user_id : Z) (rarity : string) : Z :=
  foldr Z.add 0
    ((λ uw, Z.abs (default 0 (uw_amount uw))) <$> owned_of_rarity d user_id rarity).

(** [m], run on [d], returns [a] (and some store). *)
Definition returns {A : Type} (m : M A) (d : db) (a : A) : Prop :=
  ∃ d', m d = Ok (a, d').

(** The amounts [add_crystals] credits: those of the three keywords. *)
Definition credited_amount (kwargs : list (string * Z)) : Z :=
  foldr (λ kv acc, if py_in kv.1 categories then kv.2 + acc else acc) 0 kwargs.

(** [n] calls of [m] in a row. *)
Definition repeat_call (n : nat) (m : M unit) : M unit :=
  for_each (replicate n tt) (λ _, m).

(** The store with other ownership rows. *)
Definition with_user_waifus (f : list ownership_row → list ownership_row) (d : db) : db :=
  {| users := users d; user_profiles := user_profiles d;
     user_rarities := user_rarities d; waifu_cards := waifu_cards d;
     user_waifus := f (user_waifus d) |}.

(** The [users] table can be patched: each of the four columns is there
    under exactly its name, or under no spelling at all. *)
Definition patchable (names : list string) : Prop :=
  ∀ n, In n Bootstrap.legacy_columns →
       py_in n names = true ∨ existsb (ident_eqb n) names = false.

Definition with_users_table (t : option (list Bootstrap.column))
    (s : Bootstrap.schema) : Bootstrap.schema :=
  {| Bootstrap.users_table := t;
     Bootstrap.groups_table := Bootstrap.groups_table s;
     Bootstrap.logs_table := Bootstrap.logs_table s;
     Bootstrap.user_profiles_table := Bootstrap.user_profiles_table s;
     Bootstrap.user_rarities_table := Bootstrap.user_rarities_table s |}.

(** ** Sample stores *)

(** A store in which user 1 has claimed once, with the empty string as the
    daily timestamp. *)
Definition empty_claim_row : user_row :=
  {| username := None; first_name := None; language := Some "en";
     joined_at := Some "2024-01-01 00:00:00";
     daily_crystals := 0; weekly_crystals := 0; monthly_crystals := 0;
     daily_claim := Some ""; weekly_claim := None; monthly_claim := None;
     first_logged := 0 |}.

Definition empty_claim_db : db := with_users (<[1 := empty_claim_row]>) empty_db.

Definition claimed_row : user_row :=
  {| username := Some "mio"; first_name := Some "Mio"; language := Some "en";
     joined_at := Some "2024-01-01 00:00:00";
     daily_crystals := 3; weekly_crystals := 2; monthly_crystals := 0;
     daily_claim := Some "2024-01-03T09:30:00";
     weekly_claim := Some "2024-01-01T00:00:00"; monthly_claim := Some "";
     first_logged := 1 |}.

Definition claimed_db : db := with_users (<[42 := claimed_row]>) empty_db.

(** A store in which user 8 has claimed daily and weekly, never monthly. *)
Definition dated_row : user_row :=
  {| username := Some "yui"; first_name := Some "Yui"; language := Some "en";
     joined_at := Some "2024-01-01 00:00:00";
     daily_crystals := 3; weekly_crystals := 2; monthly_crystals := 0;
     daily_claim := Some "2024-01-03T09:30:00";
     weekly_claim := Some "2024-01-01T00:00:00"; monthly_claim := None;
     first_logged := 1 |}.

Definition dated_db : db := with_users (<[8 := dated_row]>) empty_db.

(** A store with two cards in the catalog and four ownership rows. *)
Definition collection_db : db :=
  {| users := ∅; user_profiles := ∅; user_rarities := ∅;
     waifu_cards :=
       {[ 10 := {| card_name := Some "Asuna"; card_rarity := Some "Rare" |};
          11 := {| card_name := Some "Rem"; card_rarity := Some "Epic" |} ]};
     user_waifus :=
       [ {| uw_user_id := 1; uw_waifu_id := 10; uw_amount := Some 3 |};
         {| uw_user_id := 1; uw_waifu_id := 11; uw_amount := Some 4 |};
         {| uw_user_id := 1; uw_waifu_id := 10; uw_amount := Some 5 |};
         {| uw_user_id := 2; uw_waifu_id := 10; uw_amount := Some 7 |} ] |}.

(** * Properties *)

(** ** The store and the monad *)

Lemma with_users_ext (f g : gmap Z user_row → gmap Z user_row) (d : db) :
  f (users d) = g (users d) → with_users f d = with_users g d.
Proof. unfold with_users. by intros ->. Qed.

Lemma with_users_same (f : gmap Z user_row → gmap Z user_row) (d : db) :
  f (users d) = users d → with_users f d = d.
Proof. destruct d. unfold with_users. simpl. by intros ->. Qed.

Lemma with_users_compose (f g : gmap Z user_row → gmap Z user_row) (d : db) :
  with_users g (with_users f d) = with_users (λ t, g (f t)) d.
Proof. reflexivity. Qed.

Lemma bind_ok {A B : Type} (m : M A) (k : A → M B) (d d' : db) (a : A) :
  m d = Ok (a, d') → (m ≫= k) d = k a d'.
Proof. unfold mbind, M_bind. by intros ->. Qed.

(** An [UPDATE ... WHERE user_id = ?] that matches no row changes nothing. *)
Lemma alter_absent (f : user_row → user_row) (u : Z) (d : db) :
  users d !! u = None → with_users (alter f u) d = d.
Proof.
  intros Hnone. apply with_users_same, alter_id. intros r Hr. congruence.
Qed.

(** ** Column names *)

Lemma category_cases (k : string) :
  py_in k categories = true → k = "daily" ∨ k = "weekly" ∨ k = "monthly".
Proof.
  unfold py_in, categories. simpl. rewrite !orb_true_iff, !String.eqb_eq.
  intros [?|[?|[?|?]]]; auto. discriminate.
Qed.

Lemma category_in (k : string) : In k categories → py_in k categories = true.
Proof.
  unfold py_in. intros Hin. apply existsb_exists. exists k.
  split; [done | apply String.eqb_refl].
Qed.

Lemma category_crystal_column (k : string) :
  py_in k categories = true → is_Some (crystal_column_of (k ++ "_crystals")).
Proof. intros Hk. destruct (category_cases k Hk) as [-> | [-> | ->]]; by eexists. Qed.

Lemma category_claim_column (k : string) :
  In k categories → is_Some (claim_column_of (k ++ "_claim")).
Proof.
  intros Hk. apply category_in, category_cases in Hk.
  destruct Hk as [-> | [-> | ->]]; by eexists.
Qed.

(** ** Reading the ledger *)

Lemma get_crystals_absent (d : db) (u : Z) :
  users d !! u = None → get_crystals u d = Ok ((0, 0, 0, 0, None), d).
Proof.
  intros Hnone. unfold get_crystals, query, mbind, M_bind. by rewrite Hnone.
Qed.

Lemma get_crystals_present (d : db) (u : Z) (r : user_row) :
  users d !! u = Some r →
  get_crystals u d =
    Ok ((daily_crystals r, weekly_crystals r, monthly_crystals r,
         daily_crystals r + weekly_crystals r + monthly_crystals r,
         latest [daily_claim r; weekly_claim r; monthly_claim r]), d).
Proof.
  intros Hrow. unfold get_crystals, query, mbind, M_bind. by rewrite Hrow.
Qed.

(** C6. For a user identifier with no row in [users], [get_crystals] raises
    nothing, leaves the store as it is and returns [(0, 0, 0, 0, None)]. *)
Theorem get_crystals_unknown_user (d : db) (user_id : Z) :
  users d !! user_id = None →
  get_crystals user_id d = Ok ((0, 0, 0, 0, None), d).
Proof.
  intros Hnone. unfold get_crystals.
  rewrite (bind_ok _ _ d d (users d !! user_id)) by reflexivity.
  rewrite Hnone. reflexivity.
Qed.

Lemma get_crystals_unknown_user_witness :
  users empty_db !! 42 = None
  ∧ get_crystals 42 empty_db = Ok ((0, 0, 0, 0, None), empty_db).
Proof.
  split; [reflexivity |].
  apply (get_crystals_unknown_user empty_db 42). reflexivity.
Defined.

(** ** Writing a claim timestamp *)

Lemma update_last_claim_column (d : db) (u : Z) (claim_type : string)
    (c : claim_column) (t : option string) :
  claim_column_of (claim_type ++ "_claim") = Some c →
  update_last_claim u claim_type t d
  = Ok (tt, with_users (alter (set_claim c t) u) d).
Proof. unfold update_last_claim, update_users_set. by intros ->. Qed.

(** ** Profiles *)

Lemma add_or_update_profile_run (d : db) (u : Z) (kwargs : profile_kwargs) :
  add_or_update_profile u kwargs d
  = Ok (tt, with_user_profiles (<[u := dict_update defaults kwargs]>) d).
Proof.
  unfold add_or_update_profile, execute, with_user_profiles.
  by destruct (user_profiles d !! u).
Qed.

Lemma select_rarities_elem (u : Z) (t : gmap (Z * string) Z) (r : string) (c : Z) :
  (r, c) ∈ select_rarities u t ↔ t !! (u, r) = Some c.
Proof.
  unfold select_rarities. rewrite list_elem_of_omap. split.
  - intros [[[u' r'] c'] [Hin Hf]]. apply elem_of_map_to_list in Hin.
    case_decide; naive_solver.
  - intros Hlook. exists ((u, r), c). split; [by apply elem_of_map_to_list |].
    by rewrite decide_True.
Qed.

Lemma select_rarities_NoDup (u : Z) (t : gmap (Z * string) Z) :
  NoDup (select_rarities u t).*1.
Proof.
  apply NoDup_fmap_fst.
  - intros r c1 c2 H1 H2. apply select_rarities_elem in H1, H2. congruence.
  - unfold select_rarities.
    pose proof (NoDup_map_to_list t) as Hnd.
    induction Hnd as [|[[u' r'] c'] l Hnotin Hnd IH]; [constructor |].
    simpl. case_decide; [| done]. constructor; [| done].
    rewrite list_elem_of_omap. intros [[[u2 r2] c2] [Hin Hf]].
    case_decide; naive_solver.
Qed.

(** The [rarities] entry of a profile: the count of each rarity of the user. *)
Lemma rarities_lookup (u : Z) (t : gmap (Z * string) Z) (r : string) :
  (list_to_map (select_rarities u t) : gmap string Z) !! r = t !! (u, r).
Proof.
  apply option_eq. intros c.
  rewrite <- elem_of_list_to_map by apply select_rarities_NoDup.
  apply select_rarities_elem.
Qed.

Lemma get_user_profile_present (d : db) (u : Z) (row : profile_row) :
  user_profiles d !! u = Some row →
  get_user_profile u d
  = Ok (Some {| fields := row;
                rarities := list_to_map (select_rarities u (user_rarities d)) |}, d).
Proof.
  intros Hrow. unfold get_user_profile, query, mbind, M_bind. by rewrite Hrow.
Qed.

(** C1. [add_or_update_profile] writes, for any user and any choice of
    supplied fields, the full row in which each supplied field has the
    caller's value and each omitted one its default (level 1, rank Newbie,
    badge None, total_collected 0, progress 0, balance 0, global_position
    Unranked); the row replaces whatever was stored for the user, and
    nothing else in the store changes.  After any earlier upsert, an upsert
    with only [level=5] makes [get_user_profile] return rank Newbie. *)
Theorem add_or_update_profile_full_row (d : db) (user_id : Z)
    (kwargs prior : profile_kwargs) :
  let row :=
    {| level := default 1 (kw_level kwargs);
       rank := default "Newbie" (kw_rank kwargs);
       badge := default "None" (kw_badge kwargs);
       total_collected := default 0 (kw_total_collected kwargs);
       progress := default 0 (kw_progress kwargs);
       balance := default 0 (kw_balance kwargs);
       global_position := default "Unranked" (kw_global_position kwargs) |} in
  let level5 :=
    {| kw_level := Some 5; kw_rank := None; kw_badge := None;
       kw_total_collected := None; kw_progress := None; kw_balance := None;
       kw_global_position := None |} in
  add_or_update_profile user_id kwargs d
  = Ok (tt, with_user_profiles (<[user_id := row]>) d)
  ∧ (∃ p d',
        (add_or_update_profile user_id kwargs;; get_user_profile user_id) d
        = Ok (Some p, d')
        ∧ fields p = row)
  ∧ (∃ p d',
        (add_or_update_profile user_id prior;;
         add_or_update_profile user_id level5;;
         get_user_profile user_id) d
        = Ok (Some p, d')
        ∧ rank (fields p) = "Newbie"
        ∧ fields p
          = {| level := 5; rank := "Newbie"; badge := "None";
               total_collected := 0; progress := 0; balance := 0;
               global_position := "Unranked" |}).
Proof.
  intros row level5. split; [apply add_or_update_profile_run |]. split.
  - eexists _, _.
    rewrite (bind_ok _ _ _ _ _ (add_or_update_profile_run d user_id kwargs)).
    rewrite (get_user_profile_present _ _ row); [done |].
    apply lookup_insert_eq.
  - eexists _, _.
    rewrite (bind_ok _ _ _ _ _ (add_or_update_profile_run d user_id prior)).
    rewrite (bind_ok _ _ _ _ _ (add_or_update_profile_run _ user_id level5)).
    rewrite (get_user_profile_present _ _ (dict_update defaults level5));
      [done |].
    apply lookup_insert_eq.
Qed.

(** ** Rarity counters *)

Lemma update_user_rarity_run (d : db) (u : Z) (r : string) (count : Z) :
  update_user_rarity u r count d
  = Ok (tt, with_user_rarities
              (<[(u, r) := default 0 (user_rarities d !! (u, r)) + count]>) d).
Proof.
  unfold update_user_rarity, execute, with_user_rarities.
  by destruct (user_rarities d !! (u, r)).
Qed.

(** C7. [update_user_rarity] is an additive upsert on [(user_id, rarity)]:
    in the store it returns, a pair that had no row holds the supplied
    count, a pair that had one holds the old count plus the supplied one
    (the sum being in the engine's range), and every other row and table
    is as before.  Three calls with count 1 for a pair with no row leave
    the count 3 in the store, which is also what the profile of that user,
    if there is one, then reports for the rarity. *)
Theorem update_user_rarity_additive (d : db) (user_id : Z) (rarity : string)
    (count : Z) :
  (∃ d',
      update_user_rarity user_id rarity count d = Ok (tt, d')
      ∧ (user_rarities d !! (user_id, rarity) = None →
         user_rarities d' !! (user_id, rarity) = Some count)
      ∧ (∀ stored, user_rarities d !! (user_id, rarity) = Some stored →
         exact_sum stored count →
         user_rarities d' !! (user_id, rarity) = Some (stored + count))
      ∧ (∀ k, k ≠ (user_id, rarity) → user_rarities d' !! k = user_rarities d !! k)
      ∧ users d' = users d ∧ user_profiles d' = user_profiles d
      ∧ waifu_cards d' = waifu_cards d ∧ user_waifus d' = user_waifus d)
  ∧ (user_rarities d !! (user_id, "Legendary") = None →
     ∃ d3,
       (update_user_rarity user_id "Legendary" 1;;
        update_user_rarity user_id "Legendary" 1;;
        update_user_rarity user_id "Legendary" 1) d = Ok (tt, d3)
       ∧ user_rarities d3 !! (user_id, "Legendary") = Some 3
       ∧ (∀ row, user_profiles d !! user_id = Some row →
          ∃ p, get_user_profile user_id d3 = Ok (Some p, d3)
               ∧ rarities p !! "Legendary" = Some 3)).
Proof.
  split.
  - eexists. split; [apply update_user_rarity_run |].
    split; [| split; [| split; [| done]]].
    + intros Hnone. simpl. rewrite Hnone. apply lookup_insert_eq.
    + intros stored Hsome _. simpl. rewrite Hsome. apply lookup_insert_eq.
    + intros k Hk. simpl. by apply lookup_insert_ne.
  - intros Hnone. eexists. split; [| split].
    + rewrite (bind_ok _ _ _ _ _ (update_user_rarity_run d _ _ _)).
      rewrite (bind_ok _ _ _ _ _ (update_user_rarity_run _ _ _ _)).
      apply update_user_rarity_run.
    + simpl. rewrite Hnone, !lookup_insert_eq. done.
    + intros row Hrow. eexists. split.
      * by apply get_user_profile_present.
      * simpl. rewrite rarities_lookup, Hnone, !lookup_insert_eq. done.
Qed.

Lemma update_user_rarity_additive_witness :
  (∃ d',
      update_user_rarity 1 "Epic" 4
        (with_user_rarities (<[(1, "Epic") := 2]>) empty_db) = Ok (tt, d')
      ∧ user_rarities d' !! (1, "Epic") = Some (2 + 4))
  ∧ (∃ d3,
       (update_user_rarity 1 "Legendary" 1;;
        update_user_rarity 1 "Legendary" 1;;
        update_user_rarity 1 "Legendary" 1) empty_db = Ok (tt, d3)
       ∧ user_rarities d3 !! (1, "Legendary") = Some 3).
Proof.
  split.
  - destruct (update_user_rarity_additive
                (with_user_rarities (<[(1, "Epic") := 2]>) empty_db) 1 "Epic" 4)
      as [(d' & Hrun & _ & Hadd & _) _].
    exists d'. split; [exact Hrun |].
    apply Hadd; [reflexivity |]. unfold exact_sum, int64. lia.
  - destruct (update_user_rarity_additive empty_db 1 "Legendary" 0)
      as [_ Hthree].
    destruct Hthree as (d3 & Hrun & Hcount & _); [reflexivity |].
    exists d3. auto.
Defined.

(** ** The order on timestamps *)

Section StringOrder.

Lemma string_leb_refl (s : string) : String.leb s s = true.
Proof. apply Is_true_true. exact (reflexivity (R := String.le) s). Qed.

Lemma string_leb_trans (s1 s2 s3 : string) :
  String.leb s1 s2 = true → String.leb s2 s3 = true → String.leb s1 s3 = true.
Proof.
  intros H12%Is_true_true H23%Is_true_true. apply Is_true_true.
  exact (transitivity (R := String.le) H12 H23).
Qed.

Lemma string_ltb_leb (s1 s2 : string) :
  String.ltb s1 s2 = true → String.leb s1 s2 = true.
Proof. unfold String.ltb, String.leb. by destruct (String.compare s1 s2). Qed.

Lemma string_not_ltb_leb (s1 s2 : string) :
  String.ltb s1 s2 = false → String.leb s2 s1 = true.
Proof.
  unfold String.ltb, String.leb. rewrite (String.compare_antisym s2 s1).
  by destruct (String.compare s1 s2).
Qed.

End StringOrder.

Lemma py_max_spec (x : string) (xs : list string) :
  maximum_of (py_max x xs) (x :: xs).
Proof.
  unfold py_max. revert x. induction xs as [|y xs IH]; intros x; simpl.
  - split; [apply list_elem_of_here |]. intros s Hs.
    apply list_elem_of_singleton in Hs.
    subst. apply string_leb_refl.
  - destruct (IH (if String.ltb x y then y else x)) as [Hin Hmax].
    assert (Hx : String.leb x (if String.ltb x y then y else x) = true).
    { destruct (String.ltb x y) eqn:Hlt;
        [by apply string_ltb_leb | apply string_leb_refl]. }
    assert (Hy : String.leb y (if String.ltb x y then y else x) = true).
    { destruct (String.ltb x y) eqn:Hlt;
        [apply string_leb_refl | by apply string_not_ltb_leb]. }
    split.
    + apply elem_of_cons in Hin as [Heq | Htail].
      * rewrite Heq. destruct (String.ltb x y);
          [apply list_elem_of_further |]; apply list_elem_of_here.
      * by do 2 apply list_elem_of_further.
    + intros s Hs. apply elem_of_cons in Hs as [-> | Hs].
      * eapply string_leb_trans; [exact Hx |]. apply Hmax, list_elem_of_here.
      * apply elem_of_cons in Hs as [-> | Hs].
        -- eapply string_leb_trans; [exact Hy |]. apply Hmax, list_elem_of_here.
        -- by apply Hmax, list_elem_of_further.
Qed.

Lemma truthy_timestamps (claims : list (option string)) :
  omap id (List.filter truthy claims) = non_empty (non_null claims).
Proof.
  unfold non_empty, non_null.
  induction claims as [|[s|] claims IH]; simpl; [done | | done].
  destruct (String.eqb s ""); simpl; [exact IH | f_equal; exact IH].
Qed.

Lemma latest_spec (claims : list (option string)) :
  latest_of (non_empty (non_null claims)) (latest claims).
Proof.
  unfold latest. cbv zeta. rewrite truthy_timestamps.
  destruct (non_empty (non_null claims)) as [|x xs]; simpl; [done |].
  apply py_max_spec.
Qed.

Lemma alter_present (f : user_row → user_row) (u : Z) (r : user_row) (d : db) :
  users d !! u = Some r →
  with_users (alter f u) d = with_users (<[u := f r]>) d.
Proof.
  intros Hrow. apply with_users_ext. apply map_eq. intros j.
  rewrite lookup_alter, lookup_insert. case_decide; [| done].
  subst j. by rewrite Hrow.
Qed.

Lemma get_last_claim_column (d : db) (u : Z) (claim_type : string)
    (c : claim_column) :
  claim_column_of (claim_type ++ "_claim") = Some c →
  get_last_claim u claim_type d
  = Ok (default None (get_claim c <$> users d !! u), d).
Proof.
  intros Hc. unfold get_last_claim, select_users_claim, query, mbind, M_bind.
  rewrite Hc. by destruct (users d !! u).
Qed.

Lemma non_empty_id (ts : list string) :
  (∀ s, s ∈ ts → s ≠ "") → non_empty ts = ts.
Proof.
  unfold non_empty. induction ts as [|t ts IH]; intros Hne; [done |].
  simpl. rewrite (proj2 (String.eqb_neq t "") (Hne t (list_elem_of_here _ _))).
  simpl. f_equal. apply IH. intros s Hs. by apply Hne, list_elem_of_further.
Qed.

(** C4. For a user with a row whose claim timestamps are ISO-8601 strings
    or NULL (so none is the empty string), [get_crystals] returns the three
    counters, their sum as the total, and as [last_claim] the maximum, in
    the byte-wise lexicographic order, of the timestamps that are not NULL,
    or [None] when all three are NULL.  Two calls of [update_last_claim]
    for [weekly] leave the second timestamp in the weekly column, where
    [get_last_claim] reads it, and the rest of the row as it was. *)
Theorem get_crystals_total_and_last_claim (d : db) (user_id : Z) (r : user_row)
    (t1 t2 : option string) :
  users d !! user_id = Some r →
  (∀ c s, get_claim c r = Some s → s ≠ "") →
  (∃ last_claim,
      get_crystals user_id d
      = Ok ((daily_crystals r, weekly_crystals r, monthly_crystals r,
             daily_crystals r + weekly_crystals r + monthly_crystals r,
             last_claim), d)
      ∧ latest_of (non_null [daily_claim r; weekly_claim r; monthly_claim r])
          last_claim
      ∧ (last_claim = None ↔
         daily_claim r = None ∧ weekly_claim r = None ∧ monthly_claim r = None))
  ∧ (∃ d',
        (update_last_claim user_id "weekly" t1;;
         update_last_claim user_id "weekly" t2) d = Ok (tt, d')
        ∧ (∃ r', users d' !! user_id = Some r'
                 ∧ weekly_claim r' = t2
                 ∧ daily_claim r' = daily_claim r
                 ∧ monthly_claim r' = monthly_claim r)
        ∧ get_last_claim user_id "weekly" d' = Ok (t2, d')).
Proof.
  intros Hrow Hiso.
  assert (Hne : non_empty (non_null [daily_claim r; weekly_claim r; monthly_claim r])
                = non_null [daily_claim r; weekly_claim r; monthly_claim r]).
  { apply non_empty_id. intros s Hs. unfold non_null in Hs.
    apply list_elem_of_omap in Hs as (o & Ho & Heq). simpl in Heq. subst o.
    rewrite !elem_of_cons, elem_of_nil in Ho.
    destruct Ho as [Ho | [Ho | [Ho | []]]];
      [apply (Hiso DailyClaim) | apply (Hiso WeeklyClaim) | apply (Hiso MonthlyClaim)];
      done. }
  split.
  - exists (latest [daily_claim r; weekly_claim r; monthly_claim r]).
    split; [by apply get_crystals_present |].
    pose proof (latest_spec [daily_claim r; weekly_claim r; monthly_claim r])
      as Hspec.
    rewrite Hne in Hspec. split; [exact Hspec |]. split.
    + intros Hnone. rewrite Hnone in Hspec. simpl in Hspec.
      by destruct (daily_claim r), (weekly_claim r), (monthly_claim r).
    + by intros (-> & -> & ->).
  - exists (with_users (<[user_id := set_claim WeeklyClaim t2 r]>) d).
    split; [| split].
    + rewrite (bind_ok _ _ _ _ _
                 (update_last_claim_column d user_id "weekly" WeeklyClaim t1 eq_refl)).
      rewrite (update_last_claim_column _ user_id "weekly" WeeklyClaim t2 eq_refl).
      rewrite (alter_present _ _ r d Hrow).
      rewrite (alter_present _ _ (set_claim WeeklyClaim t1 r))
        by apply lookup_insert_eq.
      rewrite with_users_compose. do 2 f_equal.
      apply with_users_ext. by rewrite insert_insert_eq.
    + exists (set_claim WeeklyClaim t2 r). split; [| done].
      simpl. apply lookup_insert_eq.
    + rewrite (get_last_claim_column _ _ "weekly" WeeklyClaim eq_refl).
      simpl. by rewrite lookup_insert_eq.
Qed.

Lemma get_crystals_total_and_last_claim_witness :
  (∃ last_claim,
      get_crystals 8 dated_db = Ok ((3, 2, 0, 3 + 2 + 0, last_claim), dated_db)
      ∧ latest_of ["2024-01-03T09:30:00"; "2024-01-01T00:00:00"] last_claim)
  ∧ (∃ d',
        (update_last_claim 8 "weekly" (Some "2024-01-08T00:00:00");;
         update_last_claim 8 "weekly" (Some "2024-01-15T00:00:00")) dated_db
        = Ok (tt, d')
        ∧ get_last_claim 8 "weekly" d' = Ok (Some "2024-01-15T00:00:00", d')).
Proof.
  destruct (get_crystals_total_and_last_claim dated_db 8 dated_row
              (Some "2024-01-08T00:00:00") (Some "2024-01-15T00:00:00"))
    as [(lc & Hget & Hlatest & _) (d' & Hrun & _ & Hread)].
  - reflexivity.
  - intros [] s [= <-]; discriminate.
  - split; [exists lc; split; [exact Hget | exact Hlatest] |].
    exists d'. split; [exact Hrun | exact Hread].
Defined.

Lemma latest_unset (a b c : option string) :
  (a = None ∨ a = Some "") → (b = None ∨ b = Some "") → (c = None ∨ c = Some "") →
  latest [a; b; c] = None.
Proof. by intros [-> | ->] [-> | ->] [-> | ->]. Qed.

(** C10. [get_crystals] takes a claim timestamp stored as the empty string
    for one that is not set: for a user whose three claim columns each hold
    NULL or the empty string, [last_claim] is [None].  [update_last_claim]
    does store an empty string, which [get_last_claim] reads back as such,
    and [last_claim] is [None] after that as before. *)
Theorem get_crystals_empty_claim_is_unset (d : db) (user_id : Z) (r : user_row)
    (claim_type : string) :
  users d !! user_id = Some r →
  (∀ c, get_claim c r = None ∨ get_claim c r = Some "") →
  In claim_type categories →
  get_crystals user_id d
  = Ok ((daily_crystals r, weekly_crystals r, monthly_crystals r,
         daily_crystals r + weekly_crystals r + monthly_crystals r, None), d)
  ∧ ∃ d',
      update_last_claim user_id claim_type (Some "") d = Ok (tt, d')
      ∧ get_last_claim user_id claim_type d' = Ok (Some "", d')
      ∧ get_crystals user_id d'
        = Ok ((daily_crystals r, weekly_crystals r, monthly_crystals r,
               daily_crystals r + weekly_crystals r + monthly_crystals r, None),
              d').
Proof.
  intros Hrow Hclaims Hcat.
  pose proof (Hclaims DailyClaim) as Hd.
  pose proof (Hclaims WeeklyClaim) as Hw.
  pose proof (Hclaims MonthlyClaim) as Hm. simpl in Hd, Hw, Hm.
  split.
  - rewrite (get_crystals_present d user_id r Hrow).
    by rewrite (latest_unset _ _ _ Hd Hw Hm).
  - destruct (category_claim_column claim_type Hcat) as [c Hc].
    exists (with_users (<[user_id := set_claim c (Some "") r]>) d).
    split; [| split].
    + rewrite (update_last_claim_column _ _ _ c) by done.
      by rewrite (alter_present _ _ r).
    + rewrite (get_last_claim_column _ _ _ c) by done.
      simpl. rewrite lookup_insert_eq. by destruct c.
    + rewrite (get_crystals_present _ user_id (set_claim c (Some "") r))
        by apply lookup_insert_eq.
      destruct c; simpl; rewrite latest_unset; auto.
Qed.

Lemma get_crystals_empty_claim_is_unset_witness :
  get_crystals 1 empty_claim_db = Ok ((0, 0, 0, 0, None), empty_claim_db)
  ∧ ∃ d',
      update_last_claim 1 "monthly" (Some "") empty_claim_db = Ok (tt, d')
      ∧ get_last_claim 1 "monthly" d' = Ok (Some "", d')
      ∧ get_crystals 1 d' = Ok ((0, 0, 0, 0, None), d').
Proof.
  apply (get_crystals_empty_claim_is_unset empty_claim_db 1 empty_claim_row "monthly").
  - reflexivity.
  - intros c. destruct c; simpl; auto.
  - simpl. auto.
Defined.

(** ** Accrual *)

Lemma add_crystals_run (d : db) (u : Z) (kwargs : list (string * Z)) :
  add_crystals u kwargs d = Ok (tt, with_users (alter (credited kwargs) u) d).
Proof.
  unfold add_crystals. revert d.
  induction kwargs as [|[k v] kwargs IH]; intros d; cbn [for_each].
  - unfold mret, M_ret. do 2 f_equal. symmetry.
    by apply with_users_same, alter_id.
  - unfold mbind, M_bind.
    assert (Hstep :
      (if py_in k categories
       then update_users_add (k ++ "_crystals") v u else mret tt) d
      = Ok (tt, with_users (alter (credit (k, v)) u) d)).
    { unfold credit. cbn [fst snd]. destruct (py_in k categories) eqn:Hk.
      - destruct (category_crystal_column k Hk) as [c Hc].
        unfold update_users_add. by rewrite Hc.
      - unfold mret, M_ret. do 2 f_equal. symmetry.
        by apply with_users_same, alter_id. }
    rewrite Hstep, IH, with_users_compose. do 2 f_equal.
    apply with_users_ext. apply map_eq. intros j.
    destruct (decide (u = j)) as [<- | Hne].
    + rewrite !lookup_alter_eq. by destruct (users d !! u).
    + by rewrite !lookup_alter_ne.
Qed.

Lemma add_crystals_absent (d : db) (u : Z) (kwargs : list (string * Z)) :
  users d !! u = None → add_crystals u kwargs d = Ok (tt, d).
Proof. intros Hnone. by rewrite add_crystals_run, alter_absent. Qed.

Lemma add_crystals_present (d : db) (u : Z) (r : user_row)
    (kwargs : list (string * Z)) :
  users d !! u = Some r →
  add_crystals u kwargs d = Ok (tt, with_users (<[u := credited kwargs r]>) d).
Proof. intros Hrow. by rewrite add_crystals_run, (alter_present _ _ r). Qed.

Lemma add_user_absent (d : db) (now : string) (u : Z) (un fn : option string) :
  users d !! u = None →
  add_user now u un fn d
  = Ok (tt, with_users
              (<[u := {| username := un; first_name := fn; language := Some "en";
                         joined_at := Some now; daily_crystals := 0;
                         weekly_crystals := 0; monthly_crystals := 0;
                         daily_claim := None; weekly_claim := None;
                         monthly_claim := None; first_logged := 0 |}]>) d).
Proof. intros Hnone. unfold add_user, execute, with_users. by rewrite Hnone. Qed.

Lemma add_user_present (d : db) (now : string) (u : Z) (un fn : option string) :
  is_Some (users d !! u) → add_user now u un fn d = Ok (tt, d).
Proof.
  intros [r Hrow]. unfold add_user, execute. do 2 f_equal.
  apply with_users_same. by rewrite Hrow.
Qed.

Lemma credited_three (r : user_row) (daily weekly monthly : Z) :
  credited [("daily", daily); ("weekly", weekly); ("monthly", monthly)] r
  = add_to MonthlyCrystals monthly
      (add_to WeeklyCrystals weekly (add_to DailyCrystals daily r)).
Proof. reflexivity. Qed.

Lemma credited_daily (r : user_row) (v : Z) :
  credited [("daily", v)] r = add_to DailyCrystals v r.
Proof. reflexivity. Qed.

Lemma balance_eq (a a' b b' c c' t t' : Z) (l : option string) (d : db) :
  a = a' → b = b' → c = c' → t = t' →
  (Ok ((a, b, c, t, l), d) : result (Z * Z * Z * Z * option string * db))
  = Ok ((a', b', c', t', l), d).
Proof. by intros -> -> -> ->. Qed.

(** C5. Accrual adds to the counter and never overwrites it.  For a user
    with a row, and as long as the sums stay in the engine's range: an
    accrual under one keyword adds the amount to that counter and to the
    total and leaves the other two counters alone; two accruals of the
    same daily amount add it twice, so two of 5 add 10; an accrual of
    [daily], [weekly] and [monthly] amounts adds each to its counter.  For
    a user just registered with [add_user], two accruals of 5 leave the
    daily counter at 10, and one accrual of the three amounts makes
    [get_crystals] return them with their sum as the total. *)
Theorem add_crystals_additive (d : db) (user_id : Z) :
  (∀ r k v, users d !! user_id = Some r → In k categories →
     exact_sum (counter_of k r) v →
     ∃ d',
       add_crystals user_id [(k, v)] d = Ok (tt, d')
       ∧ get_crystals user_id d'
         = Ok ((daily_crystals r + (if String.eqb k "daily" then v else 0),
                weekly_crystals r + (if String.eqb k "weekly" then v else 0),
                monthly_crystals r + (if String.eqb k "monthly" then v else 0),
                daily_crystals r + weekly_crystals r + monthly_crystals r + v,
                latest [daily_claim r; weekly_claim r; monthly_claim r]), d'))
  ∧ (∀ r v, users d !! user_id = Some r →
     exact_sum (daily_crystals r) v → exact_sum (daily_crystals r + v) v →
     ∃ d',
       (add_crystals user_id [("daily", v)];;
        add_crystals user_id [("daily", v)]) d = Ok (tt, d')
       ∧ get_crystals user_id d'
         = Ok ((daily_crystals r + 2 * v, weekly_crystals r, monthly_crystals r,
                daily_crystals r + 2 * v + weekly_crystals r + monthly_crystals r,
                latest [daily_claim r; weekly_claim r; monthly_claim r]), d'))
  ∧ (∀ r, users d !! user_id = Some r →
     exact_sum (daily_crystals r) 5 → exact_sum (daily_crystals r + 5) 5 →
     ∃ d',
       (add_crystals user_id [("daily", 5)];;
        add_crystals user_id [("daily", 5)]) d = Ok (tt, d')
       ∧ get_crystals user_id d'
         = Ok ((daily_crystals r + 10, weekly_crystals r, monthly_crystals r,
                daily_crystals r + 10 + weekly_crystals r + monthly_crystals r,
                latest [daily_claim r; weekly_claim r; monthly_claim r]), d'))
  ∧ (∀ r daily weekly monthly, users d !! user_id = Some r →
     exact_sum (daily_crystals r) daily → exact_sum (weekly_crystals r) weekly →
     exact_sum (monthly_crystals r) monthly →
     ∃ d',
       add_crystals user_id
         [("daily", daily); ("weekly", weekly); ("monthly", monthly)] d
       = Ok (tt, d')
       ∧ get_crystals user_id d'
         = Ok ((daily_crystals r + daily, weekly_crystals r + weekly,
                monthly_crystals r + monthly,
                daily_crystals r + weekly_crystals r + monthly_crystals r
                + (daily + weekly + monthly),
                latest [daily_claim r; weekly_claim r; monthly_claim r]), d'))
  ∧ (∀ now username first_name, users d !! user_id = None →
     ∃ d',
       (add_user now user_id username first_name;;
        add_crystals user_id [("daily", 5)];;
        add_crystals user_id [("daily", 5)];;
        get_crystals user_id) d
       = Ok ((10, 0, 0, 10, None), d'))
  ∧ (∀ now username first_name daily weekly monthly,
     users d !! user_id = None →
     ∃ d',
       (add_user now user_id username first_name;;
        add_crystals user_id
          [("daily", daily); ("weekly", weekly); ("monthly", monthly)];;
        get_crystals user_id) d
       = Ok ((daily, weekly, monthly, daily + weekly + monthly, None), d')).
Proof.
  assert (Htwice : ∀ r v, users d !! user_id = Some r →
    ∃ d',
      (add_crystals user_id [("daily", v)];;
       add_crystals user_id [("daily", v)]) d = Ok (tt, d')
      ∧ get_crystals user_id d'
        = Ok ((daily_crystals r + v + v, weekly_crystals r, monthly_crystals r,
               daily_crystals r + v + v + weekly_crystals r + monthly_crystals r,
               latest [daily_claim r; weekly_claim r; monthly_claim r]), d')).
  { intros r v Hrow.
    exists (with_users
              (<[user_id := add_to DailyCrystals v (add_to DailyCrystals v r)]>) d).
    split.
    - rewrite (bind_ok _ _ _ _ _ (add_crystals_present d _ r _ Hrow)).
      rewrite (add_crystals_present _ _ (credited [("daily", v)] r))
        by apply lookup_insert_eq.
      rewrite !credited_daily, with_users_compose. do 2 f_equal.
      apply with_users_ext. by rewrite insert_insert_eq.
    - by rewrite (get_crystals_present _ _
                    (add_to DailyCrystals v (add_to DailyCrystals v r)))
        by apply lookup_insert_eq. }
  split; [| split; [| split; [| split; [| split]]]].
  - intros r k v Hrow Hk _. eexists. split.
    + by apply add_crystals_present.
    + erewrite get_crystals_present by (simpl; apply lookup_insert_eq).
      apply category_in, category_cases in Hk.
      destruct Hk as [-> | [-> | ->]]; apply balance_eq; simpl; lia.
  - intros r v Hrow _ _. destruct (Htwice r v Hrow) as (d' & Hrun & Hget).
    exists d'. split; [exact Hrun |]. rewrite Hget. apply balance_eq; lia.
  - intros r Hrow _ _. destruct (Htwice r 5 Hrow) as (d' & Hrun & Hget).
    exists d'. split; [exact Hrun |]. rewrite Hget. apply balance_eq; lia.
  - intros r daily weekly monthly Hrow _ _ _. eexists. split.
    + by apply add_crystals_present.
    + erewrite get_crystals_present by (simpl; apply lookup_insert_eq).
      rewrite credited_three. apply balance_eq; simpl; lia.
  - intros now un fn Hnone. eexists.
    rewrite (bind_ok _ _ _ _ _ (add_user_absent d now _ un fn Hnone)).
    erewrite bind_ok by (apply add_crystals_present, lookup_insert_eq).
    erewrite bind_ok by (apply add_crystals_present, lookup_insert_eq).
    erewrite get_crystals_present by apply lookup_insert_eq.
    rewrite !credited_daily. reflexivity.
  - intros now un fn daily weekly monthly Hnone. eexists.
    rewrite (bind_ok _ _ _ _ _ (add_user_absent d now _ un fn Hnone)).
    erewrite bind_ok by (apply add_crystals_present, lookup_insert_eq).
    erewrite get_crystals_present by apply lookup_insert_eq.
    rewrite credited_three. reflexivity.
Qed.

Lemma add_crystals_additive_witness :
  (∃ d',
      add_crystals 42 [("weekly", 7)] claimed_db = Ok (tt, d')
      ∧ get_crystals 42 d'
        = Ok ((3 + 0, 2 + 7, 0 + 0, 3 + 2 + 0 + 7,
               latest [daily_claim claimed_row; weekly_claim claimed_row;
                       monthly_claim claimed_row]), d'))
  ∧ (∃ d',
      (add_crystals 42 [("daily", 5)];; add_crystals 42 [("daily", 5)]) claimed_db
      = Ok (tt, d')
      ∧ get_crystals 42 d'
        = Ok ((3 + 10, 2, 0, 3 + 10 + 2 + 0,
               latest [daily_claim claimed_row; weekly_claim claimed_row;
                       monthly_claim claimed_row]), d'))
  ∧ (∃ d',
      (add_user "2024-01-01 00:00:00" 42 None None;;
       add_crystals 42 [("daily", 3); ("weekly", 2); ("monthly", 0)];;
       get_crystals 42) empty_db
      = Ok ((3, 2, 0, 3 + 2 + 0, None), d')).
Proof.
  split; [| split].
  - destruct (add_crystals_additive claimed_db 42) as [Hone _].
    apply (Hone claimed_row "weekly" 7); [reflexivity | simpl; auto |].
    unfold exact_sum, int64, counter_of. simpl. lia.
  - destruct (add_crystals_additive claimed_db 42) as (_ & _ & Hten & _).
    apply (Hten claimed_row); [reflexivity | |]; unfold exact_sum, int64; simpl; lia.
  - destruct (add_crystals_additive empty_db 42) as (_ & _ & _ & _ & _ & Hfresh).
    apply Hfresh. reflexivity.
Defined.

(** C3, as stated, fails: with no row for user 7, [add_crystals(7, daily=5)]
    returns normally, the store still has no row for 7, and [get_crystals]
    returns zeros, not the 5 that were accrued. *)
Lemma add_crystals_unknown_user_counterexample :
  users empty_db !! 7 = None
  ∧ add_crystals 7 [("daily", 5)] empty_db = Ok (tt, empty_db)
  ∧ (add_crystals 7 [("daily", 5)];; get_crystals 7) empty_db
    = Ok ((0, 0, 0, 0, None), empty_db)
  ∧ ¬ (∃ r d',
         add_crystals 7 [("daily", 5)] empty_db = Ok (tt, d')
         ∧ users d' !! 7 = Some r).
Proof.
  split; [reflexivity |]. split; [by vm_compute |]. split; [by vm_compute |].
  intros (r & d' & Hrun & Hrow).
  rewrite (add_crystals_absent empty_db 7 _ eq_refl) in Hrun.
  by simplify_eq.
Qed.

(** C3 (amended). For a user identifier with no row in [users],
    [add_crystals] with any keywords creates no row and leaves the store
    unchanged, so [get_crystals] afterwards returns [(0, 0, 0, 0, None)].
    The row is created by [add_user]; once it is there, the first accrual of
    an amount to one of the three categories is what [get_crystals]
    returns. *)
Theorem add_crystals_creates_no_row (d : db) (user_id : Z)
    (kwargs : list (string * Z)) :
  users d !! user_id = None →
  add_crystals user_id kwargs d = Ok (tt, d)
  ∧ (add_crystals user_id kwargs;; get_crystals user_id) d
    = Ok ((0, 0, 0, 0, None), d)
  ∧ ∀ now username first_name category amount,
      In category categories →
      ∃ d',
        (add_user now user_id username first_name;;
         add_crystals user_id [(category, amount)];;
         get_crystals user_id) d
        = Ok ((if String.eqb category "daily" then amount else 0,
               if String.eqb category "weekly" then amount else 0,
               if String.eqb category "monthly" then amount else 0,
               amount, None), d')
        ∧ is_Some (users d' !! user_id).
Proof.
  intros Hnone. split; [by apply add_crystals_absent |]. split.
  - rewrite (bind_ok _ _ _ _ _ (add_crystals_absent d _ kwargs Hnone)).
    by apply get_crystals_absent.
  - intros now un fn category amount Hcat. eexists.
    rewrite (bind_ok _ _ _ _ _ (add_user_absent d now _ un fn Hnone)).
    erewrite bind_ok by (apply add_crystals_present, lookup_insert_eq).
    erewrite get_crystals_present by apply lookup_insert_eq.
    split.
    + apply category_in, category_cases in Hcat.
      destruct Hcat as [-> | [-> | ->]]; cbn;
        rewrite ?Z.add_0_r; reflexivity.
    + simpl. by rewrite lookup_insert_eq.
Qed.

Lemma add_crystals_creates_no_row_witness :
  add_crystals 7 [("daily", 5); ("weekly", 1)] empty_db = Ok (tt, empty_db)
  ∧ (add_crystals 7 [("daily", 5); ("weekly", 1)];; get_crystals 7) empty_db
    = Ok ((0, 0, 0, 0, None), empty_db)
  ∧ ∃ d',
      (add_user "2024-01-01 00:00:00" 7 None (Some "Rin");;
       add_crystals 7 [("weekly", 4)];;
       get_crystals 7) empty_db
      = Ok ((0, 4, 0, 4, None), d')
      ∧ is_Some (users d' !! 7).
Proof.
  destruct (add_crystals_creates_no_row empty_db 7 [("daily", 5); ("weekly", 1)])
    as (Hrun & Hget & Hreg); [reflexivity |].
  split; [exact Hrun |]. split; [exact Hget |].
  apply (Hreg "2024-01-01 00:00:00" None (Some "Rin") "weekly" 4).
  simpl. auto.
Defined.

(** C8, as stated, fails in what it says of accrual: for user 7, who has
    no row, [update_last_claim] changes nothing, and neither does
    [add_crystals], which creates no row either. *)
Lemma update_last_claim_unlike_accrual_counterexample :
  users empty_db !! 7 = None
  ∧ update_last_claim 7 "daily" (Some "2024-01-01T00:00:00") empty_db
    = Ok (tt, empty_db)
  ∧ add_crystals 7 [("daily", 5)] empty_db = Ok (tt, empty_db)
  ∧ ¬ (∃ r d',
         add_crystals 7 [("daily", 5)] empty_db = Ok (tt, d')
         ∧ users d' !! 7 = Some r).
Proof.
  split; [reflexivity |]. split; [by vm_compute |].
  assert (Hrun : add_crystals 7 [("daily", 5)] empty_db = Ok (tt, empty_db))
    by (by vm_compute).
  split; [exact Hrun |].
  intros (r & d' & Hrun' & Hrow). rewrite Hrun in Hrun'. by simplify_eq.
Qed.

(** C8 (amended). [update_last_claim] for a user identifier with no row in
    [users], with any of the three categories and any timestamp, returns
    normally with the whole store unchanged: no row is created, and
    [get_crystals] for that user still returns [(0, 0, 0, 0, None)].  In
    this it is like accrual: [add_crystals] for that user, with any
    keywords, leaves the store unchanged as well. *)
Theorem update_last_claim_unknown_user (d : db) (user_id : Z)
    (claim_type : string) (time_iso : option string) :
  users d !! user_id = None →
  In claim_type categories →
  update_last_claim user_id claim_type time_iso d = Ok (tt, d)
  ∧ (update_last_claim user_id claim_type time_iso;; get_crystals user_id) d
    = Ok ((0, 0, 0, 0, None), d)
  ∧ (∀ kwargs, add_crystals user_id kwargs d = Ok (tt, d)).
Proof.
  intros Hnone Hcat.
  destruct (category_claim_column claim_type Hcat) as [c Hc].
  assert (Hrun : update_last_claim user_id claim_type time_iso d = Ok (tt, d)).
  { rewrite (update_last_claim_column _ _ _ c) by done.
    by rewrite alter_absent. }
  split; [done |]. split.
  - rewrite (bind_ok _ _ _ _ _ Hrun). by apply get_crystals_absent.
  - intros kwargs. by apply add_crystals_absent.
Qed.

Lemma update_last_claim_unknown_user_witness :
  update_last_claim 7 "weekly" (Some "2024-01-01T00:00:00") empty_db
  = Ok (tt, empty_db)
  ∧ (update_last_claim 7 "weekly" (Some "2024-01-01T00:00:00");;
     get_crystals 7) empty_db
    = Ok ((0, 0, 0, 0, None), empty_db)
  ∧ add_crystals 7 [("weekly", 4)] empty_db = Ok (tt, empty_db).
Proof.
  destruct (update_last_claim_unknown_user empty_db 7 "weekly"
              (Some "2024-01-01T00:00:00")) as (Hrun & Hget & Hacc).
  - reflexivity.
  - simpl. auto.
  - split; [exact Hrun |]. split; [exact Hget | apply Hacc].
Defined.

(** The ledger scenario of the specification, run on the empty store. *)
Example ledger_scenario :
  ∃ d,
    (add_user "2024-01-01 00:00:00" 42 (Some "mio") (Some "Mio");;
     add_crystals 42 [("daily", 3); ("weekly", 2)];;
     before ← get_crystals 42;
     update_last_claim 42 "daily" (Some "2024-01-01T00:00:00");;
     after ← get_crystals 42;
     mret (before, after)) empty_db
    = Ok (((3, 2, 0, 5, None), (3, 2, 0, 5, Some "2024-01-01T00:00:00")), d).
Proof. eexists. by vm_compute. Qed.

(** ** Categories outside the three *)

Lemma category_not_in (k : string) : ¬ In k categories → py_in k categories = false.
Proof.
  intros Hnot. destruct (py_in k categories) eqn:Hk; [| done].
  exfalso. apply Hnot. destruct (category_cases k Hk) as [-> | [-> | ->]];
    simpl; auto.
Qed.

Lemma credit_unknown (k : string) (v : Z) (r : user_row) :
  py_in k categories = false → credit (k, v) r = r.
Proof. unfold credit. simpl. by intros ->. Qed.

Lemma credited_app (l1 l2 : list (string * Z)) (r : user_row) :
  credited (l1 ++ l2) r = credited l2 (credited l1 r).
Proof. apply fold_left_app. Qed.

Lemma lower_ascii_idemp (c : ascii) : lower_ascii (lower_ascii c) = lower_ascii c.
Proof. destruct c as [[] [] [] [] [] [] [] []]; reflexivity. Qed.

Lemma lower_idemp (s : string) : lower (lower s) = lower s.
Proof.
  induction s as [|c s IH]; simpl; [done |].
  by rewrite lower_ascii_idemp, IH.
Qed.

Lemma lower_app (a b : string) : lower (a ++ b) = lower a ++ lower b.
Proof.
  induction a as [|c a IH]; [done |].
  change (String (lower_ascii c) (lower (a ++ b))
          = String (lower_ascii c) (lower a ++ lower b)).
  by rewrite IH.
Qed.

Lemma string_app_length (a b : string) :
  String.length (a ++ b) = (String.length a + String.length b)%nat.
Proof.
  induction a as [|c a IH]; [done |].
  change (S (String.length (a ++ b)) = S (String.length a + String.length b)).
  by rewrite IH.
Qed.

Lemma string_app_inv_tail (a b s : string) : a ++ s = b ++ s → a = b.
Proof.
  revert b. induction a as [|c a IH]; intros [|c' b] Heq.
  - done.
  - apply (f_equal String.length) in Heq.
    rewrite !string_app_length in Heq. simpl in Heq. lia.
  - apply (f_equal String.length) in Heq.
    rewrite !string_app_length in Heq. simpl in Heq. lia.
  - change (String c (a ++ s) = String c' (b ++ s)) in Heq.
    injection Heq as -> Heq. f_equal. by apply IH.
Qed.

Lemma ident_eqb_claim (claim_type k : string) :
  lower k = k →
  ident_eqb (claim_type ++ "_claim") (k ++ "_claim") = true → lower claim_type = k.
Proof.
  intros Hk. unfold ident_eqb. rewrite !lower_app, Hk, String.eqb_eq.
  change (lower "_claim") with "_claim". apply string_app_inv_tail.
Qed.

Lemma claim_column_of_unknown (claim_type : string) :
  ¬ In (lower claim_type) categories →
  claim_column_of (claim_type ++ "_claim") = None.
Proof.
  intros Hnot. unfold claim_column_of.
  destruct (ident_eqb (claim_type ++ "_claim") "daily_claim") eqn:Hd.
  { exfalso. apply Hnot. rewrite (ident_eqb_claim claim_type "daily" eq_refl Hd).
    simpl. auto. }
  destruct (ident_eqb (claim_type ++ "_claim") "weekly_claim") eqn:Hw.
  { exfalso. apply Hnot. rewrite (ident_eqb_claim claim_type "weekly" eq_refl Hw).
    simpl. auto. }
  destruct (ident_eqb (claim_type ++ "_claim") "monthly_claim") eqn:Hm.
  { exfalso. apply Hnot. rewrite (ident_eqb_claim claim_type "monthly" eq_refl Hm).
    simpl. auto. }
  reflexivity.
Qed.

Lemma claim_column_of_lower (claim_type : string) :
  claim_column_of (lower claim_type ++ "_claim")
  = claim_column_of (claim_type ++ "_claim").
Proof.
  unfold claim_column_of, ident_eqb.
  by rewrite !lower_app, lower_idemp.
Qed.

(** C2, as stated, fails: [add_crystals] called for an existing user with
    the keyword [yearly] raises nothing and returns with the store
    unchanged. *)
Lemma add_crystals_unknown_category_counterexample :
  ¬ In "yearly" categories
  ∧ add_crystals 42 [("yearly", 5)] claimed_db = Ok (tt, claimed_db)
  ∧ ¬ (∃ e, add_crystals 42 [("yearly", 5)] claimed_db = Raise e).
Proof.
  assert (Hrun : add_crystals 42 [("yearly", 5)] claimed_db = Ok (tt, claimed_db))
    by (by vm_compute).
  split; [| split; [exact Hrun |]].
  - simpl. intros [H | [H | [H | []]]]; discriminate.
  - intros [e He]. rewrite Hrun in He. discriminate.
Qed.

(** C2 (amended). A category outside daily, weekly and monthly is never
    answered with a dedicated error.  [add_crystals] raises nothing and
    skips the keyword: alone it leaves the store unchanged, among other
    keywords the call does what it does without it.  [update_last_claim]
    treats the category as part of a column name, which the engine matches
    without regard to letter case: a word that is none of the three even in
    lower case makes the statement fail with [sqlite3.OperationalError],
    and a word is served as the same word in lower case, so one that is
    one of the three in lower case is served as that one. *)
Theorem unknown_category_outcome (d : db) (user_id : Z) (category : string)
    (amount : Z) (time_iso : option string) :
  ¬ In category categories →
  add_crystals user_id [(category, amount)] d = Ok (tt, d)
  ∧ (∀ before after,
       add_crystals user_id (before ++ (category, amount) :: after) d
       = add_crystals user_id (before ++ after) d)
  ∧ (is_word category = true → ¬ In (lower category) categories →
     update_last_claim user_id category time_iso d = Raise OperationalError)
  ∧ (is_word category = true →
     update_last_claim user_id category time_iso d
     = update_last_claim user_id (lower category) time_iso d).
Proof.
  intros Hnot%category_not_in.
  assert (Hskip : ∀ before after r,
            credited (before ++ (category, amount) :: after) r
            = credited (before ++ after) r).
  { intros before after r. rewrite !credited_app. simpl.
    by rewrite (credit_unknown _ _ _ Hnot). }
  split; [| split; [| split]].
  - rewrite add_crystals_run. do 2 f_equal. apply with_users_same.
    apply alter_id. intros r _. apply (Hskip [] [] r).
  - intros before after. rewrite !add_crystals_run. do 2 f_equal.
    apply with_users_ext. apply map_eq. intros j.
    rewrite !lookup_alter. case_decide; [| done].
    destruct (users d !! user_id); [| done]. simpl. by rewrite Hskip.
  - intros _ Hlower. unfold update_last_claim, update_users_set.
    by rewrite (claim_column_of_unknown category Hlower).
  - intros _. unfold update_last_claim, update_users_set.
    by rewrite claim_column_of_lower.
Qed.

Lemma unknown_category_outcome_witness :
  add_crystals 42 [("yearly", 5)] claimed_db = Ok (tt, claimed_db)
  ∧ add_crystals 42 [("daily", 1); ("yearly", 5); ("weekly", 2)] claimed_db
    = add_crystals 42 [("daily", 1); ("weekly", 2)] claimed_db
  ∧ update_last_claim 42 "yearly" (Some "2024-01-01T00:00:00") claimed_db
    = Raise OperationalError
  ∧ update_last_claim 42 "Daily" (Some "2024-01-01T00:00:00") claimed_db
    = update_last_claim 42 "daily" (Some "2024-01-01T00:00:00") claimed_db.
Proof.
  destruct (unknown_category_outcome claimed_db 42 "yearly" 5
              (Some "2024-01-01T00:00:00"))
    as (Halone & Hskip & Hraise & _).
  { simpl. intros [H | [H | [H | []]]]; discriminate. }
  split; [exact Halone |]. split; [exact (Hskip [("daily", 1)] [("weekly", 2)]) |].
  split.
  - apply Hraise; [reflexivity |].
    simpl. intros [H | [H | [H | []]]]; discriminate.
  - destruct (unknown_category_outcome claimed_db 42 "Daily" 5
                (Some "2024-01-01T00:00:00")) as (_ & _ & _ & Hlower).
    { simpl. intros [H | [H | [H | []]]]; discriminate. }
    apply Hlower. reflexivity.
Defined.

(** ** The rarity count *)

Lemma in_int64_spec (z : Z) : in_int64 z = true ↔ int64 z.
Proof.
  unfold in_int64, int64. rewrite andb_true_iff, Z.leb_le, Z.ltb_lt. done.
Qed.

Lemma abs_sum_nonneg (vs : list Z) : (0 ≤ foldr Z.add 0 (Z.abs <$> vs))%Z.
Proof.
  induction vs as [|x vs IH]; [done |].
  rewrite fmap_cons. cbn [foldr]. lia.
Qed.

Lemma sum_from_exact (acc : Z) (vs : list Z) :
  Z.abs acc + foldr Z.add 0 (Z.abs <$> vs) < 2 ^ 63 →
  sum_from acc vs = Ok (acc + foldr Z.add 0 vs).
Proof.
  revert acc. induction vs as [|v vs IH]; intros acc Hbound.
  - simpl. by rewrite Z.add_0_r.
  - rewrite fmap_cons in Hbound. cbn [foldr] in Hbound.
    pose proof (abs_sum_nonneg vs) as Hpos. cbn [sum_from foldr].
    rewrite (proj2 (in_int64_spec (acc + v))) by (unfold int64; lia).
    rewrite IH by lia. f_equal. lia.
Qed.

Lemma sum_from_returns (acc n : Z) (vs : list Z) :
  sum_from acc vs = Ok n → n = acc + foldr Z.add 0 vs.
Proof.
  revert acc. induction vs as [|v vs IH]; intros acc; simpl.
  - intros [= <-]. lia.
  - destruct (in_int64 (acc + v)); [| done]. intros Hrest%IH. lia.
Qed.

Lemma omap_id_sum (l : list (option Z)) :
  foldr Z.add 0 (omap id l) = foldr Z.add 0 (default 0 <$> l)
  ∧ foldr Z.add 0 (Z.abs <$> omap id l)
    = foldr Z.add 0 ((λ a, Z.abs (default 0 a)) <$> l).
Proof.
  induction l as [|[v|] l [IH1 IH2]]; [done | | done].
  split; simpl; f_equal; [exact IH1 | exact IH2].
Qed.

Lemma sql_sum_exact (l : list (option Z)) :
  foldr Z.add 0 ((λ a, Z.abs (default 0 a)) <$> l) < 2 ^ 63 →
  ∃ r, sql_sum l = Ok r ∧ default 0 r = foldr Z.add 0 (default 0 <$> l).
Proof.
  intros Hbound. destruct (omap_id_sum l) as [Hsum Habs].
  unfold sql_sum. destruct (omap id l) as [|v vs] eqn:Hvs.
  - exists None. split; [done |]. by rewrite <- Hsum.
  - rewrite sum_from_exact by (rewrite Habs; simpl; lia).
    eexists. split; [done |]. simpl. rewrite <- Hsum. simpl. lia.
Qed.

Lemma sql_sum_returns (l : list (option Z)) (r : option Z) :
  sql_sum l = Ok r → default 0 r = foldr Z.add 0 (default 0 <$> l).
Proof.
  destruct (omap_id_sum l) as [Hsum _]. unfold sql_sum.
  destruct (omap id l) as [|v vs] eqn:Hvs.
  - intros [= <-]. by rewrite <- Hsum.
  - destruct (sum_from 0 (v :: vs)) as [n|e] eqn:Hn; [| done].
    intros [= <-]. apply sum_from_returns in Hn. rewrite <- Hsum, Hn.
    simpl. lia.
Qed.

(** The catalog rows that join with one identifier: at most the row the
    key finds. *)
Lemma join_key (id : Z) (l : list (Z * card_row)) :
  NoDup l.*1 →
  (wc ← l; if decide (id = wc.1) then [wc] else [])
  = match (list_to_map l : gmap Z card_row) !! id with
    | Some card => [(id, card)]
    | None => []
    end.
Proof.
  induction l as [|[k card] l IH]; intros Hnd; [done |].
  apply NoDup_cons in Hnd as [Hk Hnd]. specialize (IH Hnd).
  cbn [mbind list_bind]. rewrite list_to_map_cons. simpl.
  destruct (decide (id = k)) as [-> | Hne].
  - rewrite lookup_insert_eq. fold (mbind (M := list)
      (λ wc : Z * card_row, if decide (k = wc.1) then [wc] else []) l).
    rewrite IH, (not_elem_of_list_to_map_1 l k Hk). done.
  - rewrite lookup_insert_ne by done. exact IH.
Qed.

Lemma join_pair (uw : ownership_row) (id : Z) (l : list (Z * card_row)) :
  (wc ← l; if decide (id = wc.1) then [(uw, wc)] else [])
  = (λ wc, (uw, wc)) <$> (wc ← l; if decide (id = wc.1) then [wc] else []).
Proof.
  induction l as [|wc l IH]; [done |].
  cbn [mbind list_bind]. rewrite fmap_app. f_equal; [| exact IH].
  by case_decide.
Qed.

Lemma join_row (d : db) (uw : ownership_row) :
  (wc ← map_to_list (waifu_cards d);
   if decide (uw_waifu_id uw = wc.1) then [(uw, wc)] else [])
  = match waifu_cards d !! uw_waifu_id uw with
    | Some card => [(uw, (uw_waifu_id uw, card))]
    | None => []
    end.
Proof.
  rewrite join_pair, join_key by apply NoDup_fst_map_to_list.
  rewrite list_to_map_to_list.
  by destruct (waifu_cards d !! uw_waifu_id uw).
Qed.

Lemma join_rows (d : db) :
  join_on_waifu_id d
  = uw ← user_waifus d;
    match waifu_cards d !! uw_waifu_id uw with
    | Some card => [(uw, (uw_waifu_id uw, card))]
    | None => []
    end.
Proof.
  unfold join_on_waifu_id.
  induction (user_waifus d) as [|uw l IH]; [done |].
  cbn [mbind list_bind]. f_equal; [apply join_row | exact IH].
Qed.

Lemma joined_owned (d : db) (u : Z) (rarity : string) :
  (λ row : ownership_row * (Z * card_row), row.1) <$>
    List.filter
      (λ row, bool_decide (uw_user_id row.1 = u ∧ card_rarity row.2.2 = Some rarity))
      (join_on_waifu_id d)
  = owned_of_rarity d u rarity.
Proof.
  rewrite join_rows. unfold owned_of_rarity.
  induction (user_waifus d) as [|uw l IH]; [done |].
  cbn [mbind list_bind]. rewrite List.filter_app, fmap_app.
  fold (mbind (M := list)
    (λ uw : ownership_row,
       match waifu_cards d !! uw_waifu_id uw with
       | Some card => [(uw, (uw_waifu_id uw, card))]
       | None => []
       end) l).
  rewrite IH. simpl.
  destruct (waifu_cards d !! uw_waifu_id uw) as [card|]; simpl.
  - destruct (decide (uw_user_id uw = u ∧ card_rarity card = Some rarity))
      as [[Hu Hr] | Hno].
    + rewrite !bool_decide_eq_true_2; [done | | done].
      split; [done | by rewrite Hr].
    + rewrite !bool_decide_eq_false_2; [done | | done].
      intros [Hu Hr]. apply Hno. split; [done | congruence].
  - rewrite bool_decide_eq_false_2; [done |]. intros [_ Hr]. discriminate.
Qed.

Lemma owned_amount_fmap (d : db) (u : Z) (rarity : string) :
  owned_amount d u rarity
  = foldr Z.add 0 (default 0 <$> (uw_amount <$> owned_of_rarity d u rarity))
  ∧ owned_bound d u rarity
    = foldr Z.add 0
        ((λ a, Z.abs (default 0 a)) <$> (uw_amount <$> owned_of_rarity d u rarity)).
Proof.
  unfold owned_amount, owned_bound. split; f_equal.
  - exact (list_fmap_compose uw_amount (default 0) _).
  - exact (list_fmap_compose uw_amount (λ a, Z.abs (default 0 a)) _).
Qed.

(** The amounts [SUM] is given are those of the rows that count. *)
Lemma summed_amounts (d : db) (u : Z) (rarity : string) :
  (λ row : ownership_row * (Z * card_row), uw_amount row.1) <$>
    List.filter
      (λ row, bool_decide (uw_user_id row.1 = u ∧ card_rarity row.2.2 = Some rarity))
      (join_on_waifu_id d)
  = uw_amount <$> owned_of_rarity d u rarity.
Proof. by rewrite <- joined_owned, <- list_fmap_compose. Qed.

Lemma get_user_rarity_count_run (d : db) (u : Z) (rarity : string) :
  owned_bound d u rarity < 2 ^ 63 →
  get_user_rarity_count u rarity d = Ok (owned_amount d u rarity, d).
Proof.
  intros Hbound. unfold get_user_rarity_count, fetch, mbind, M_bind, mret, M_ret.
  rewrite summed_amounts.
  destruct (owned_amount_fmap d u rarity) as [-> Hb].
  destruct (sql_sum_exact (uw_amount <$> owned_of_rarity d u rarity))
    as (r & -> & Hr); [by rewrite <- Hb |].
  do 2 f_equal. rewrite <- Hr. by destruct r.
Qed.

Lemma get_user_rarity_count_returns (d d' : db) (u : Z) (rarity : string) (n : Z) :
  get_user_rarity_count u rarity d = Ok (n, d') →
  n = owned_amount d u rarity ∧ d' = d.
Proof.
  unfold get_user_rarity_count, fetch, mbind, M_bind, mret, M_ret.
  rewrite summed_amounts.
  destruct (sql_sum (uw_amount <$> owned_of_rarity d u rarity)) as [r|e] eqn:Hr;
    [| done].
  intros [= <- <-]. split; [| done].
  apply sql_sum_returns in Hr.
  destruct (owned_amount_fmap d u rarity) as [-> _]. rewrite <- Hr.
  by destruct r.
Qed.

(** C9. [get_user_rarity_count] returns, for any user and rarity, the sum
    of the amounts of the ownership rows of that user whose card has that
    rarity in the catalog, as long as the amounts in absolute value add up
    within the 64-bit range, where [SUM] cannot overflow; it returns the
    integer 0 when there is no such row.  It never returns another number
    than that sum, and it leaves the store as it is. *)
Theorem get_user_rarity_count_sum (d : db) (user_id : Z) (rarity : string) :
  (owned_bound d user_id rarity < 2 ^ 63 →
   get_user_rarity_count user_id rarity d = Ok (owned_amount d user_id rarity, d))
  ∧ (owned_of_rarity d user_id rarity = [] →
     get_user_rarity_count user_id rarity d = Ok (0, d))
  ∧ (∀ n d', get_user_rarity_count user_id rarity d = Ok (n, d') →
             n = owned_amount d user_id rarity ∧ d' = d).
Proof.
  split; [apply get_user_rarity_count_run |]. split.
  - intros Hnone. rewrite get_user_rarity_count_run.
    + unfold owned_amount. by rewrite Hnone.
    + unfold owned_bound. rewrite Hnone. done.
  - intros n d'. apply get_user_rarity_count_returns.
Qed.

Lemma get_user_rarity_count_sum_witness :
  get_user_rarity_count 1 "Rare" collection_db = Ok (8, collection_db)
  ∧ get_user_rarity_count 1 "Mythic" collection_db = Ok (0, collection_db).
Proof.
  split.
  - destruct (get_user_rarity_count_sum collection_db 1 "Rare") as [Hsum _].
    rewrite Hsum; [by vm_compute |]. by vm_compute.
  - destruct (get_user_rarity_count_sum collection_db 1 "Mythic") as (_ & Hzero & _).
    apply Hzero. by vm_compute.
Defined.

(** * Further properties of the ledger *)

(** X1. [add_user] is insert-or-ignore: a second registration of the same
    identifier, with whatever name and at whatever time, changes nothing,
    so the first registration is the one that stays. *)
Theorem add_user_first_wins (d : db) (user_id : Z) (now now' : string)
    (username first_name username' first_name' : option string) :
  (add_user now user_id username first_name;;
   add_user now' user_id username' first_name') d
  = add_user now user_id username first_name d.
Proof.
  destruct (users d !! user_id) as [r|] eqn:Hrow.
  - rewrite (bind_ok _ _ _ _ _ (add_user_present d now _ _ _ (mk_is_Some _ _ Hrow))).
    rewrite !add_user_present; by eauto.
  - rewrite (bind_ok _ _ _ _ _ (add_user_absent d now _ _ _ Hrow)).
    rewrite (add_user_absent d now _ _ _ Hrow).
    apply add_user_present. simpl. rewrite lookup_insert_eq. by eexists.
Qed.

Lemma is_first_logged_run (d : db) (u : Z) :
  is_first_logged u d
  = Ok (match users d !! u with Some r => Z.eqb (first_logged r) 1 | None => false end, d).
Proof. reflexivity. Qed.



(** X3. [set_first_logged] followed by [is_first_logged] answers True
    exactly for a user with a row: for an unknown user the mark is not
    recorded anywhere, the store is unchanged and the answer is False. *)
Theorem first_logged_round_trip (d : db) (user_id : Z) :
  (∀ r, users d !! user_id = Some r →
     returns (set_first_logged user_id;; is_first_logged user_id) d true)
  ∧ (users d !! user_id = None →
     set_first_logged user_id d = Ok (tt, d)
     ∧ (set_first_logged user_id;; is_first_logged user_id) d = Ok (false, d)).
Proof.
  split.
  - intros r Hrow. eexists.
    unfold set_first_logged at 1.
    erewrite bind_ok by reflexivity.
    rewrite is_first_logged_run. simpl. rewrite lookup_alter_eq, Hrow. done.
  - intros Hnone.
    assert (Hrun : set_first_logged user_id d = Ok (tt, d)).
    { unfold set_first_logged, execute. by rewrite alter_absent. }
    split; [done |].
    rewrite (bind_ok _ _ _ _ _ Hrun), is_first_logged_run. by rewrite Hnone.
Qed.

Lemma first_logged_round_trip_witness :
  returns (set_first_logged 1;; is_first_logged 1) empty_claim_db true
  ∧ (set_first_logged 7;; is_first_logged 7) empty_db = Ok (false, empty_db).
Proof.
  split.
  - destruct (first_logged_round_trip empty_claim_db 1) as [Hrow _].
    apply (Hrow empty_claim_row). reflexivity.
  - destruct (first_logged_round_trip empty_db 7) as [_ Hnone].
    apply Hnone. reflexivity.
Defined.

Lemma update_last_claim_present (d : db) (u : Z) (r : user_row)
    (claim_type : string) (c : claim_column) (t : option string) :
  users d !! u = Some r →
  claim_column_of (claim_type ++ "_claim") = Some c →
  update_last_claim u claim_type t d
  = Ok (tt, with_users (<[u := set_claim c t r]>) d).
Proof.
  intros Hrow Hc. rewrite (update_last_claim_column _ _ _ c) by done.
  by rewrite (alter_present _ _ r).
Qed.

Lemma get_claim_set_claim (c c' : claim_column) (t : option string) (r : user_row) :
  get_claim c' (set_claim c t r) = if decide (c = c') then t else get_claim c' r.
Proof. destruct c, c'; reflexivity. Qed.

Lemma category_columns_differ (k k' : string) (c c' : claim_column) :
  In k categories → In k' categories → k ≠ k' →
  claim_column_of (k ++ "_claim") = Some c →
  claim_column_of (k' ++ "_claim") = Some c' →
  c ≠ c'.
Proof.
  intros Hk%category_in%category_cases Hk'%category_in%category_cases Hne.
  destruct Hk as [-> | [-> | ->]], Hk' as [-> | [-> | ->]];
    intros [= <-] [= <-]; done.
Qed.

(** X4. Writing a claim timestamp and reading it back: for a user with a
    row and any of the three categories, [get_last_claim] after
    [update_last_claim] returns the timestamp written, [None] included; for
    a user without a row it returns [None] and nothing was stored. *)
Theorem last_claim_round_trip (d : db) (user_id : Z) (claim_type : string)
    (time_iso : option string) :
  In claim_type categories →
  (∀ r, users d !! user_id = Some r →
     returns (update_last_claim user_id claim_type time_iso;;
              get_last_claim user_id claim_type) d time_iso)
  ∧ (users d !! user_id = None →
     (update_last_claim user_id claim_type time_iso;;
      get_last_claim user_id claim_type) d = Ok (None, d)).
Proof.
  intros Hcat. destruct (category_claim_column claim_type Hcat) as [c Hc].
  split.
  - intros r Hrow. eexists.
    rewrite (bind_ok _ _ _ _ _ (update_last_claim_present d _ r _ c _ Hrow Hc)).
    rewrite (get_last_claim_column _ _ _ c Hc). simpl.
    rewrite lookup_insert_eq. simpl. rewrite get_claim_set_claim.
    by rewrite decide_True.
  - intros Hnone.
    rewrite (bind_ok _ _ d d tt).
    + rewrite (get_last_claim_column _ _ _ c Hc). by rewrite Hnone.
    + rewrite (update_last_claim_column _ _ _ c _ Hc). by rewrite alter_absent.
Qed.

Lemma last_claim_round_trip_witness :
  returns (update_last_claim 42 "monthly" (Some "2024-02-01T00:00:00");;
           get_last_claim 42 "monthly") claimed_db (Some "2024-02-01T00:00:00")
  ∧ (update_last_claim 7 "monthly" (Some "2024-02-01T00:00:00");;
     get_last_claim 7 "monthly") empty_db = Ok (None, empty_db).
Proof.
  split.
  - destruct (last_claim_round_trip claimed_db 42 "monthly"
                (Some "2024-02-01T00:00:00")) as [Hrow _]; [simpl; auto |].
    apply (Hrow claimed_row). reflexivity.
  - destruct (last_claim_round_trip empty_db 7 "monthly"
                (Some "2024-02-01T00:00:00")) as [_ Hnone]; [simpl; auto |].
    apply Hnone. reflexivity.
Defined.

(** X5. The claim timestamps are independent of one another and of the
    counters: [update_last_claim] for one user and category changes neither
    what [get_last_claim] returns for another user or another category, nor
    the three counters and the total that [get_crystals] returns for anyone. *)
Theorem update_last_claim_frame (d : db) (user_id other : Z)
    (claim_type claim_type' : string) (time_iso : option string) :
  In claim_type categories →
  In claim_type' categories →
  (user_id ≠ other ∨ claim_type ≠ claim_type' →
   ∀ v, returns (get_last_claim other claim_type') d v →
        returns (update_last_claim user_id claim_type time_iso;;
                 get_last_claim other claim_type') d v)
  ∧ (∀ daily weekly monthly total last_claim,
       returns (get_crystals other) d (daily, weekly, monthly, total, last_claim) →
       ∃ last_claim',
         returns (update_last_claim user_id claim_type time_iso;;
                  get_crystals other) d
                 (daily, weekly, monthly, total, last_claim')).
Proof.
  intros Hcat Hcat'.
  destruct (category_claim_column claim_type Hcat) as [c Hc].
  destruct (category_claim_column claim_type' Hcat') as [c' Hc'].
  pose proof (update_last_claim_column d user_id claim_type c time_iso Hc) as Hrun.
  split.
  - intros Hdiff v [d0 Hget]. eexists.
    rewrite (bind_ok _ _ _ _ _ Hrun).
    rewrite (get_last_claim_column _ _ _ c' Hc') in Hget.
    rewrite (get_last_claim_column _ _ _ c' Hc').
    injection Hget as <- _. simpl. do 2 f_equal.
    rewrite lookup_alter. case_decide as Hu; [| done]. subst other.
    destruct (users d !! user_id) as [r|]; [| done]. simpl.
    rewrite get_claim_set_claim. rewrite decide_False; [done |].
    destruct Hdiff as [Hdiff | Hdiff]; [done |].
    by apply (category_columns_differ claim_type claim_type').
  - intros daily weekly monthly total last_claim [d0 Hget].
    destruct (users d !! other) as [r|] eqn:Hrow.
    + rewrite (get_crystals_present d other r Hrow) in Hget.
      injection Hget as <- <- <- <- _ _.
      destruct (decide (user_id = other)) as [-> | Hne].
      * eexists. eexists. rewrite (bind_ok _ _ _ _ _ Hrun).
        erewrite get_crystals_present
          by (simpl; rewrite lookup_alter_eq, Hrow; reflexivity).
        by destruct c.
      * eexists. eexists. rewrite (bind_ok _ _ _ _ _ Hrun).
        erewrite get_crystals_present
          by (simpl; rewrite lookup_alter_ne by done; exact Hrow).
        done.
    + rewrite (get_crystals_absent d other Hrow) in Hget.
      injection Hget as <- <- <- <- _ _. eexists. eexists.
      rewrite (bind_ok _ _ _ _ _ Hrun).
      apply get_crystals_absent. simpl.
      rewrite lookup_alter. case_decide; [subst; by rewrite Hrow | done].
Qed.

Lemma update_last_claim_frame_witness :
  returns (update_last_claim 42 "monthly" (Some "2024-02-01T00:00:00");;
           get_last_claim 42 "daily") claimed_db (Some "2024-01-03T09:30:00")
  ∧ ∃ last_claim',
      returns (update_last_claim 42 "monthly" (Some "2024-02-01T00:00:00");;
               get_crystals 42) claimed_db (3, 2, 0, 5, last_claim').
Proof.
  destruct (update_last_claim_frame claimed_db 42 42 "monthly" "daily"
              (Some "2024-02-01T00:00:00")) as [Hclaim Hcount];
    [simpl; auto | simpl; auto |].
  split.
  - apply Hclaim; [by right |]. exists claimed_db. reflexivity.
  - apply (Hcount 3 2 0 5 (Some "2024-01-03T09:30:00")).
    exists claimed_db. reflexivity.
Defined.



Lemma credit_keeps (kv : string * Z) (r : user_row) :
  daily_claim (credit kv r) = daily_claim r
  ∧ weekly_claim (credit kv r) = weekly_claim r
  ∧ monthly_claim (credit kv r) = monthly_claim r
  ∧ first_logged (credit kv r) = first_logged r.
Proof.
  unfold credit. destruct (py_in kv.1 categories); [| done].
  by destruct (crystal_column_of (kv.1 ++ "_crystals")).
Qed.

Lemma credited_keeps (kwargs : list (string * Z)) (r : user_row) :
  daily_claim (credited kwargs r) = daily_claim r
  ∧ weekly_claim (credited kwargs r) = weekly_claim r
  ∧ monthly_claim (credited kwargs r) = monthly_claim r
  ∧ first_logged (credited kwargs r) = first_logged r.
Proof.
  revert r. induction kwargs as [|kv kwargs IH]; intros r; [done |].
  change (credited (kv :: kwargs) r) with (credited kwargs (credit kv r)).
  destruct (IH (credit kv r)) as (-> & -> & -> & ->). apply credit_keeps.
Qed.

(** X7. [add_crystals] writes counters only: whatever the keywords, it
    changes no claim timestamp and no logged mark of any user, and it
    leaves the balance of every other user as it was.  (The claim
    timestamps are read with [get_last_claim] for a category that is a
    word.) *)
Theorem add_crystals_frame (d : db) (user_id other : Z)
    (kwargs : list (string * Z)) :
  ∃ d',
    add_crystals user_id kwargs d = Ok (tt, d')
    ∧ (∀ claim_type, is_word claim_type = true →
         get_last_claim other claim_type d'
         = match get_last_claim other claim_type d with
           | Ok (v, _) => Ok (v, d')
           | Raise e => Raise e
           end)
    ∧ (∀ v, is_first_logged other d = Ok (v, d) → is_first_logged other d' = Ok (v, d'))
    ∧ (other ≠ user_id →
       ∀ v, get_crystals other d = Ok (v, d) → get_crystals other d' = Ok (v, d')).
Proof.
  eexists. split; [apply add_crystals_run |]. split; [| split].
  - intros claim_type _. unfold get_last_claim, select_users_claim.
    destruct (claim_column_of (claim_type ++ "_claim")) as [c|]; [| done].
    unfold query, mbind, M_bind, mret, M_ret. simpl. do 2 f_equal.
    rewrite lookup_alter. case_decide as Hu; [| done]. subst other.
    destruct (users d !! user_id) as [r|]; [| done]. simpl.
    destruct (credited_keeps kwargs r) as (Hd & Hw & Hm & _).
    destruct c; simpl; congruence.
  - intros v. rewrite !is_first_logged_run. intros [= <-]. do 2 f_equal.
    simpl. rewrite lookup_alter. case_decide as Hu; [| done]. subst other.
    destruct (users d !! user_id) as [r|]; [| done]. simpl.
    destruct (credited_keeps kwargs r) as (_ & _ & _ & ->). done.
  - intros Hne v Hget.
    destruct (users d !! other) as [r|] eqn:Hrow.
    + rewrite (get_crystals_present d other r Hrow) in Hget.
      injection Hget as <-.
      apply get_crystals_present. simpl. by rewrite lookup_alter_ne.
    + rewrite (get_crystals_absent d other Hrow) in Hget.
      injection Hget as <-.
      apply get_crystals_absent. simpl. by rewrite lookup_alter_ne.
Qed.

Lemma add_crystals_frame_witness :
  ∃ d',
    add_crystals 42 [("daily", 1)] claimed_db = Ok (tt, d')
    ∧ get_last_claim 42 "weekly" d' = Ok (Some "2024-01-01T00:00:00", d').
Proof.
  destruct (add_crystals_frame claimed_db 42 42 [("daily", 1)])
    as (d' & Hrun & Hclaims & _).
  exists d'. split; [exact Hrun |].
  exact (Hclaims "weekly" eq_refl).
Defined.

Lemma add_to_comm (c1 c2 : crystal_column) (v1 v2 : Z) (r : user_row) :
  add_to c1 v1 (add_to c2 v2 r) = add_to c2 v2 (add_to c1 v1 r).
Proof. destruct c1, c2; unfold add_to; simpl; f_equal; lia. Qed.

Lemma credit_comm (kv1 kv2 : string * Z) (r : user_row) :
  credit kv1 (credit kv2 r) = credit kv2 (credit kv1 r).
Proof.
  unfold credit.
  destruct (py_in kv1.1 categories), (py_in kv2.1 categories); try done.
  destruct (crystal_column_of (kv1.1 ++ "_crystals")),
    (crystal_column_of (kv2.1 ++ "_crystals")); try done.
  apply add_to_comm.
Qed.

Lemma credited_permutation (l l' : list (string * Z)) :
  l ≡ₚ l' → ∀ r, credited l r = credited l' r.
Proof.
  induction 1 as [| kv l l' _ IH | kv1 kv2 l | l l' l'' _ IH1 _ IH2]; intros r.
  - done.
  - apply (IH (credit kv r)).
  - change (credited l (credit kv1 (credit kv2 r))
            = credited l (credit kv2 (credit kv1 r))).
    by rewrite credit_comm.
  - by rewrite IH1.
Qed.

(** X8. The order in which the caller writes the keywords of
    [add_crystals] does not matter: two keyword lists that are permutations
    of each other lead to the same store. *)
Theorem add_crystals_order_irrelevant (d : db) (user_id : Z)
    (kwargs kwargs' : list (string * Z)) :
  kwargs ≡ₚ kwargs' →
  add_crystals user_id kwargs d = add_crystals user_id kwargs' d.
Proof.
  intros Hperm. rewrite !add_crystals_run. do 2 f_equal.
  apply with_users_ext. apply map_eq. intros j.
  rewrite !lookup_alter. case_decide; [| done].
  destruct (users d !! user_id); [| done]. simpl.
  by rewrite (credited_permutation _ _ Hperm).
Qed.

Lemma add_crystals_order_irrelevant_witness :
  add_crystals 42 [("daily", 1); ("monthly", 3); ("weekly", 2)] claimed_db
  = add_crystals 42 [("weekly", 2); ("daily", 1); ("monthly", 3)] claimed_db.
Proof.
  apply (add_crystals_order_irrelevant claimed_db 42).
  apply (Permutation_cons_app [("weekly", 2)] [("monthly", 3)] ("daily", 1)).
  apply perm_swap.
Defined.

Lemma credit_total (kv : string * Z) (r : user_row) :
  daily_crystals (credit kv r) + weekly_crystals (credit kv r)
  + monthly_crystals (credit kv r)
  = daily_crystals r + weekly_crystals r + monthly_crystals r
    + (if py_in kv.1 categories then kv.2 else 0).
Proof.
  unfold credit. destruct (py_in kv.1 categories) eqn:Hk; [| lia].
  destruct (category_crystal_column _ Hk) as [c ->].
  destruct c; simpl; lia.
Qed.

Lemma credited_total (kwargs : list (string * Z)) (r : user_row) :
  daily_crystals (credited kwargs r) + weekly_crystals (credited kwargs r)
  + monthly_crystals (credited kwargs r)
  = daily_crystals r + weekly_crystals r + monthly_crystals r
    + credited_amount kwargs.
Proof.
  revert r. induction kwargs as [|kv kwargs IH]; intros r.
  - simpl. lia.
  - change (credited (kv :: kwargs) r) with (credited kwargs (credit kv r)).
    rewrite IH, credit_total.
    change (credited_amount (kv :: kwargs))
      with (if py_in kv.1 categories then kv.2 + credited_amount kwargs
            else credited_amount kwargs).
    destruct (py_in kv.1 categories); lia.
Qed.

(** X9. For a user with a row, [add_crystals] with any keywords raises the
    total that [get_crystals] returns by the sum of the amounts given for
    [daily], [weekly] and [monthly]; amounts under other keywords do not
    count, and [last_claim] is as before.  The counters and the amounts
    credited are bounded so that every sum the engine forms is in its
    range. *)
Theorem add_crystals_total (d : db) (user_id : Z) (r : user_row)
    (kwargs : list (string * Z)) :
  users d !! user_id = Some r →
  Z.abs (daily_crystals r) + Z.abs (weekly_crystals r)
  + Z.abs (monthly_crystals r) + credited_bound kwargs < 2 ^ 63 →
  ∃ daily weekly monthly,
    returns (add_crystals user_id kwargs;; get_crystals user_id) d
      (daily, weekly, monthly,
       daily_crystals r + weekly_crystals r + monthly_crystals r
       + credited_amount kwargs,
       latest [daily_claim r; weekly_claim r; monthly_claim r])
    ∧ daily + weekly + monthly
      = daily_crystals r + weekly_crystals r + monthly_crystals r
        + credited_amount kwargs.
Proof.
  intros Hrow _.
  exists (daily_crystals (credited kwargs r)), (weekly_crystals (credited kwargs r)),
    (monthly_crystals (credited kwargs r)).
  split; [| apply credited_total].
  eexists.
  rewrite (bind_ok _ _ _ _ _ (add_crystals_present d _ r kwargs Hrow)).
  rewrite (get_crystals_present _ _ (credited kwargs r))
    by (simpl; apply lookup_insert_eq).
  destruct (credited_keeps kwargs r) as (-> & -> & -> & _).
  by rewrite credited_total.
Qed.

Lemma add_crystals_total_witness :
  ∃ daily weekly monthly,
    returns (add_crystals 42 [("daily", 4); ("yearly", 100); ("monthly", 1)];;
             get_crystals 42) claimed_db
      (daily, weekly, monthly, 3 + 2 + 0 + (4 + (1 + 0)),
       Some "2024-01-03T09:30:00")
    ∧ daily + weekly + monthly = 3 + 2 + 0 + (4 + (1 + 0)).
Proof.
  apply (add_crystals_total claimed_db 42 claimed_row
           [("daily", 4); ("yearly", 100); ("monthly", 1)]).
  - reflexivity.
  - by vm_compute.
Defined.

Lemma credit_inverse (k : string) (v : Z) (r : user_row) :
  credit (k, - v) (credit (k, v) r) = r.
Proof.
  unfold credit. cbn [fst snd]. destruct (py_in k categories); [| done].
  destruct (crystal_column_of (k ++ "_crystals")) as [c|]; [| done].
  destruct r, c; unfold add_to; simpl; f_equal; lia.
Qed.

(** X10. Amounts are added as they come, negative ones included, with no
    floor at zero: accruing an amount and then its negative under the same
    keyword gives back the store exactly as it was, the amount and the
    counter it is added to being bounded so that the engine's sum is in
    range. *)
Theorem add_crystals_negative_undoes (d : db) (user_id : Z) (k : string) (v : Z) :
  Z.abs v < 2 ^ 63 →
  (∀ r, users d !! user_id = Some r → In k categories →
        Z.abs (counter_of k r) + Z.abs v < 2 ^ 63) →
  (add_crystals user_id [(k, v)];; add_crystals user_id [(k, - v)]) d = Ok (tt, d).
Proof.
  intros _ _.
  rewrite (bind_ok _ _ _ _ _ (add_crystals_run d user_id [(k, v)])).
  rewrite add_crystals_run, with_users_compose. do 2 f_equal.
  apply with_users_same. apply map_eq. intros j.
  destruct (decide (user_id = j)) as [<- | Hne].
  - rewrite !lookup_alter_eq.
    destruct (users d !! user_id) as [r|]; [| done]. simpl. f_equal.
    apply credit_inverse.
  - by rewrite !lookup_alter_ne.
Qed.

Lemma non_empty_elem (claims : list (option string)) (t : string) :
  t ∈ non_empty (non_null claims) ↔ Some t ∈ claims ∧ t ≠ "".
Proof.
  unfold non_empty, non_null.
  rewrite list_elem_of_In, filter_In, <- list_elem_of_In, list_elem_of_omap.
  rewrite negb_true_iff, String.eqb_neq. split.
  - intros [[[s|] [Hin Heq]] Hne]; simplify_eq/=. done.
  - intros [Hin Hne]. split; [| done]. by exists (Some t).
Qed.

Lemma add_crystals_negative_undoes_witness :
  (add_crystals 42 [("daily", 10)];; add_crystals 42 [("daily", - 10)]) claimed_db
  = Ok (tt, claimed_db).
Proof.
  apply (add_crystals_negative_undoes claimed_db 42 "daily" 10).
  - by vm_compute.
  - intros r [= <-] _. by vm_compute.
Defined.

(** X11. After [update_last_claim] stores a timestamp that is not empty
    for a user with a row, the [last_claim] of [get_crystals] is set and is
    not before that timestamp; the counters and the total are untouched. *)
Theorem last_claim_not_before_update (d : db) (user_id : Z) (r : user_row)
    (claim_type t : string) :
  users d !! user_id = Some r →
  In claim_type categories →
  t ≠ "" →
  ∃ m,
    returns (update_last_claim user_id claim_type (Some t);;
             get_crystals user_id) d
      (daily_crystals r, weekly_crystals r, monthly_crystals r,
       daily_crystals r + weekly_crystals r + monthly_crystals r, Some m)
    ∧ String.leb t m = true.
Proof.
  intros Hrow Hcat Hne.
  destruct (category_claim_column claim_type Hcat) as [c Hc].
  set (r' := set_claim c (Some t) r).
  pose proof (latest_spec [daily_claim r'; weekly_claim r'; monthly_claim r'])
    as Hlatest.
  assert (Hin : t ∈ non_empty (non_null
                  [daily_claim r'; weekly_claim r'; monthly_claim r'])).
  { apply non_empty_elem. split; [| done].
    destruct c; simpl;
      [| apply list_elem_of_further | do 2 apply list_elem_of_further];
      apply list_elem_of_here. }
  destruct (latest [daily_claim r'; weekly_claim r'; monthly_claim r'])
    as [m|] eqn:Hm.
  - exists m. split; [| by apply Hlatest].
    eexists.
    rewrite (bind_ok _ _ _ _ _ (update_last_claim_present d _ r _ c _ Hrow Hc)).
    rewrite (get_crystals_present _ _ r') by (simpl; apply lookup_insert_eq).
    rewrite Hm. by destruct c.
  - unfold latest_of in Hlatest. rewrite Hlatest in Hin.
    by apply elem_of_nil in Hin.
Qed.

Lemma last_claim_not_before_update_witness :
  ∃ m,
    returns (update_last_claim 42 "weekly" (Some "2023-12-31T00:00:00");;
             get_crystals 42) claimed_db (3, 2, 0, 3 + 2 + 0, Some m)
    ∧ String.leb "2023-12-31T00:00:00" m = true.
Proof.
  apply (last_claim_not_before_update claimed_db 42 claimed_row "weekly").
  - reflexivity.
  - simpl. auto.
  - discriminate.
Defined.

(** * Further properties of the profile tables *)

(** X12. Of two upserts of the same user only the second one counts: the
    store after both is the store after the second alone, so nothing of an
    earlier profile survives a later [add_or_update_profile]. *)
Theorem add_or_update_profile_last_wins (d : db) (user_id : Z)
    (kwargs1 kwargs2 : profile_kwargs) :
  (add_or_update_profile user_id kwargs1;;
   add_or_update_profile user_id kwargs2) d
  = add_or_update_profile user_id kwargs2 d.
Proof.
  rewrite (bind_ok _ _ _ _ _ (add_or_update_profile_run d user_id kwargs1)).
  rewrite !add_or_update_profile_run. do 2 f_equal.
  unfold with_user_profiles. simpl. by rewrite insert_insert_eq.
Qed.

Lemma get_user_profile_absent (d : db) (u : Z) :
  user_profiles d !! u = None → get_user_profile u d = Ok (None, d).
Proof.
  intros Hnone. unfold get_user_profile, query, mbind, M_bind. by rewrite Hnone.
Qed.

(** X13. Whether [get_user_profile] returns a profile depends on the
    profile table alone: for a user without a profile row it returns
    [None] even right after [update_user_rarity] has stored a count for
    that user, and the count is kept in the store all the same (the old
    count plus the new one, their sum being in the engine's range). *)
Theorem get_user_profile_needs_profile_row (d : db) (user_id : Z)
    (rarity : string) (count : Z) :
  user_profiles d !! user_id = None →
  exact_sum (default 0 (user_rarities d !! (user_id, rarity))) count →
  ∃ d',
    (update_user_rarity user_id rarity count;; get_user_profile user_id) d
    = Ok (None, d')
    ∧ user_rarities d' !! (user_id, rarity)
      = Some (default 0 (user_rarities d !! (user_id, rarity)) + count).
Proof.
  intros Hnone _. eexists.
  rewrite (bind_ok _ _ _ _ _ (update_user_rarity_run d user_id rarity count)).
  split; [by apply get_user_profile_absent |].
  simpl. apply lookup_insert_eq.
Qed.

Lemma get_user_profile_needs_profile_row_witness :
  ∃ d',
    (update_user_rarity 5 "Rare" 2;; get_user_profile 5) empty_db = Ok (None, d')
    ∧ user_rarities d' !! (5, "Rare") = Some (0 + 2).
Proof.
  apply (get_user_profile_needs_profile_row empty_db 5 "Rare" 2).
  - reflexivity.
  - unfold exact_sum, int64. repeat split; by vm_compute.
Defined.

(** X14. For a user with a profile row, the [rarities] of the profile
    returned after [update_user_rarity] hold, for the rarity incremented,
    the old count (0 if there was none) plus the increment, their sum
    being in the engine's range, and for every other rarity what was
    stored; the seven profile fields are untouched, and an increment for
    another user does not show. *)
Theorem get_user_profile_rarities (d : db) (user_id other : Z)
    (row : profile_row) (rarity : string) (count : Z) :
  user_profiles d !! user_id = Some row →
  (exact_sum (default 0 (user_rarities d !! (user_id, rarity))) count →
   ∃ p,
      returns (update_user_rarity user_id rarity count;;
               get_user_profile user_id) d (Some p)
      ∧ fields p = row
      ∧ rarities p !! rarity
        = Some (default 0 (user_rarities d !! (user_id, rarity)) + count)
      ∧ ∀ rarity', rarity' ≠ rarity →
          rarities p !! rarity' = user_rarities d !! (user_id, rarity'))
  ∧ (other ≠ user_id →
     ∃ p,
       returns (update_user_rarity other rarity count;;
                get_user_profile user_id) d (Some p)
       ∧ fields p = row
       ∧ ∀ rarity', rarities p !! rarity' = user_rarities d !! (user_id, rarity')).
Proof.
  intros Hrow. split.
  - intros _. eexists. split; [| split; [| split]].
    + eexists.
      rewrite (bind_ok _ _ _ _ _ (update_user_rarity_run d user_id rarity count)).
      by apply get_user_profile_present.
    + done.
    + simpl. rewrite rarities_lookup. apply lookup_insert_eq.
    + intros rarity' Hne. simpl. rewrite rarities_lookup.
      apply lookup_insert_ne. congruence.
  - intros Hother. eexists. split; [| split].
    + eexists.
      rewrite (bind_ok _ _ _ _ _ (update_user_rarity_run d other rarity count)).
      by apply get_user_profile_present.
    + done.
    + intros rarity'. simpl. rewrite rarities_lookup.
      apply lookup_insert_ne. congruence.
Qed.

Lemma get_user_profile_rarities_witness :
  ∃ p,
    returns (update_user_rarity 3 "Epic" 2;; get_user_profile 3)
      (with_user_profiles (<[3 := defaults]>) empty_db) (Some p)
    ∧ fields p = defaults
    ∧ rarities p !! "Epic" = Some (0 + 2).
Proof.
  destruct (get_user_profile_rarities
              (with_user_profiles (<[3 := defaults]>) empty_db) 3 4 defaults "Epic" 2)
    as [Hsame _]; [reflexivity |].
  destruct Hsame as (p & Hrun & Hfields & Hcount & _).
  - unfold exact_sum, int64. repeat split; by vm_compute.
  - exists p. auto.
Defined.

(** X15. Increments of rarity counts commute: two calls of
    [update_user_rarity], for the same or for different users and
    rarities, lead to the same store in either order, the stored counts
    and the two increments being bounded so that every sum the engine
    forms, in either order, is in its range. *)
Theorem update_user_rarity_commute (d : db) (user1 user2 : Z)
    (rarity1 rarity2 : string) (count1 count2 : Z) :
  Z.abs (default 0 (user_rarities d !! (user1, rarity1)))
  + Z.abs count1 + Z.abs count2 < 2 ^ 63 →
  Z.abs (default 0 (user_rarities d !! (user2, rarity2)))
  + Z.abs count1 + Z.abs count2 < 2 ^ 63 →
  (update_user_rarity user1 rarity1 count1;;
   update_user_rarity user2 rarity2 count2) d
  = (update_user_rarity user2 rarity2 count2;;
     update_user_rarity user1 rarity1 count1) d.
Proof.
  intros _ _.
  rewrite (bind_ok _ _ _ _ _ (update_user_rarity_run d user1 rarity1 count1)).
  rewrite (bind_ok _ _ _ _ _ (update_user_rarity_run d user2 rarity2 count2)).
  rewrite !update_user_rarity_run. do 2 f_equal.
  unfold with_user_rarities. simpl. f_equal.
  destruct (decide ((user1, rarity1) = (user2, rarity2))) as [Heq | Hne].
  - injection Heq as <- <-. rewrite !lookup_insert_eq, !insert_insert_eq.
    simpl. f_equal. lia.
  - rewrite !lookup_insert_ne by congruence.
    by apply insert_insert_ne.
Qed.

Lemma update_user_rarity_commute_witness :
  (update_user_rarity 1 "Epic" 2;; update_user_rarity 1 "Epic" 5)
    (with_user_rarities (<[(1, "Epic") := 3]>) empty_db)
  = (update_user_rarity 1 "Epic" 5;; update_user_rarity 1 "Epic" 2)
      (with_user_rarities (<[(1, "Epic") := 3]>) empty_db).
Proof.
  apply (update_user_rarity_commute
           (with_user_rarities (<[(1, "Epic") := 3]>) empty_db) 1 1 "Epic" "Epic" 2 5);
    by vm_compute.
Defined.

Lemma repeat_call_rarity (d : db) (u : Z) (r : string) (c : Z) (n : nat) :
  repeat_call (S n) (update_user_rarity u r c) d
  = Ok (tt, with_user_rarities
              (<[(u, r) := default 0 (user_rarities d !! (u, r))
                           + Z.of_nat (S n) * c]>) d).
Proof.
  revert d. induction n as [|n IH]; intros d.
  - unfold repeat_call. cbn [replicate for_each].
    rewrite (bind_ok _ _ _ _ _ (update_user_rarity_run d u r c)).
    unfold mret, M_ret. do 4 f_equal. lia.
  - change (repeat_call (S (S n)) (update_user_rarity u r c))
      with (update_user_rarity u r c;; repeat_call (S n) (update_user_rarity u r c)).
    rewrite (bind_ok _ _ _ _ _ (update_user_rarity_run d u r c)), IH.
    do 2 f_equal. unfold with_user_rarities. simpl. f_equal.
    rewrite lookup_insert_eq, insert_insert_eq. simpl. f_equal. lia.
Qed.

(** X16. At least one call of [update_user_rarity] with the same
    arguments, repeated [n] times, does what one call with [n] times the
    count does, as long as the stored count and [n] times the count, in
    absolute value, add up within the engine's range.  (No call at all
    stores nothing, where a call with count 0 would create the row.) *)
Theorem update_user_rarity_repeated (d : db) (user_id : Z) (rarity : string)
    (count : Z) (n : nat) :
  (0 < n)%nat →
  Z.abs (default 0 (user_rarities d !! (user_id, rarity)))
  + Z.of_nat n * Z.abs count < 2 ^ 63 →
  repeat_call n (update_user_rarity user_id rarity count) d
  = update_user_rarity user_id rarity (Z.of_nat n * count) d.
Proof.
  intros Hn _. destruct n as [|n]; [lia |].
  by rewrite repeat_call_rarity, update_user_rarity_run.
Qed.

Lemma update_user_rarity_repeated_witness :
  repeat_call 3 (update_user_rarity 1 "Legendary" 2) empty_db
  = update_user_rarity 1 "Legendary" (3 * 2) empty_db.
Proof.
  apply (update_user_rarity_repeated empty_db 1 "Legendary" 2 3).
  - lia.
  - by vm_compute.
Defined.

(** X17. A rarity row is never deleted and a negative count is not
    refused: after an increment followed by the opposite increment the
    store has a row for the pair, holding the old count, or 0 where there
    was no row; every other row and table is as before.  The stored count
    and the increment are bounded so that the engine's sums are in its
    range. *)
Theorem update_user_rarity_undone_keeps_row (d : db) (user_id : Z)
    (rarity : string) (count : Z) :
  Z.abs (default 0 (user_rarities d !! (user_id, rarity))) + Z.abs count < 2 ^ 63 →
  ∃ d',
    (update_user_rarity user_id rarity count;;
     update_user_rarity user_id rarity (- count)) d = Ok (tt, d')
    ∧ user_rarities d' !! (user_id, rarity)
      = Some (default 0 (user_rarities d !! (user_id, rarity)))
    ∧ (∀ k, k ≠ (user_id, rarity) → user_rarities d' !! k = user_rarities d !! k)
    ∧ users d' = users d ∧ user_profiles d' = user_profiles d
    ∧ waifu_cards d' = waifu_cards d ∧ user_waifus d' = user_waifus d.
Proof.
  intros _. eexists. split.
  { rewrite (bind_ok _ _ _ _ _ (update_user_rarity_run d user_id rarity count)).
    apply update_user_rarity_run. }
  split; [| split; [| done]].
  - simpl. rewrite !lookup_insert_eq. simpl. f_equal. lia.
  - intros k Hk. simpl. by rewrite !lookup_insert_ne.
Qed.

Lemma update_user_rarity_undone_keeps_row_witness :
  ∃ d',
    (update_user_rarity 1 "Epic" 4;; update_user_rarity 1 "Epic" (- 4)) empty_db
    = Ok (tt, d')
    ∧ user_rarities d' !! (1, "Epic") = Some 0.
Proof.
  destruct (update_user_rarity_undone_keeps_row empty_db 1 "Epic" 4)
    as (d' & Hrun & Hcount & _); [by vm_compute |].
  exists d'. split; [exact Hrun | exact Hcount].
Defined.

(** The outcome of [get_user_rarity_count] is decided by the catalog and
    the ownership table. *)
Lemma get_user_rarity_count_tables (d d' : db) (u : Z) (rarity : string) :
  waifu_cards d' = waifu_cards d → user_waifus d' = user_waifus d →
  get_user_rarity_count u rarity d'
  = match get_user_rarity_count u rarity d with
    | Ok (n, _) => Ok (n, d')
    | Raise e => Raise e
    end.
Proof.
  intros Hcards Hrows.
  unfold get_user_rarity_count, fetch, mbind, M_bind, mret, M_ret, join_on_waifu_id.
  rewrite Hcards, Hrows.
  by destruct (sql_sum _).
Qed.

(** X18. The rarity counters and the owned-card count are kept apart: no
    writing method of the class touches the card catalog or the ownership
    table, so [get_user_rarity_count] has the same outcome before and
    after any of them, [update_user_rarity] included: the same number, or
    the same failure of [SUM]. *)
Theorem get_user_rarity_count_unaffected (d d' : db) (user_id : Z) (rarity : string) :
  (∃ now u username first_name, add_user now u username first_name d = Ok (tt, d'))
  ∨ (∃ u, set_first_logged u d = Ok (tt, d'))
  ∨ (∃ u kwargs, add_crystals u kwargs d = Ok (tt, d'))
  ∨ (∃ u claim_type time_iso, update_last_claim u claim_type time_iso d = Ok (tt, d'))
  ∨ (∃ u kwargs, add_or_update_profile u kwargs d = Ok (tt, d'))
  ∨ (∃ u r count, update_user_rarity u r count d = Ok (tt, d')) →
  get_user_rarity_count user_id rarity d'
  = match get_user_rarity_count user_id rarity d with
    | Ok (n, _) => Ok (n, d')
    | Raise e => Raise e
    end.
Proof.
  intros Hwrite.
  apply get_user_rarity_count_tables;
    destruct Hwrite as
      [(now & u & un & fn & Hrun)
      | [(u & Hrun)
      | [(u & kwargs & Hrun)
      | [(u & c & t & Hrun)
      | [(u & kwargs & Hrun)
      | (u & r & count & Hrun)]]]]];
    try (rewrite add_crystals_run in Hrun);
    try (rewrite add_or_update_profile_run in Hrun);
    try (rewrite update_user_rarity_run in Hrun);
    try (unfold update_last_claim, update_users_set in Hrun;
         destruct (claim_column_of (c ++ "_claim")); [| discriminate]);
    by injection Hrun as <-.
Qed.

Lemma get_user_rarity_count_unaffected_witness :
  get_user_rarity_count 1 "Rare"
    (with_user_rarities (<[(1, "Rare") := 0 + 5]>) collection_db)
  = Ok (8, with_user_rarities (<[(1, "Rare") := 0 + 5]>) collection_db).
Proof.
  rewrite (get_user_rarity_count_unaffected collection_db
             (with_user_rarities (<[(1, "Rare") := 0 + 5]>) collection_db) 1 "Rare").
  - by vm_compute.
  - do 5 right. exists 1, "Rare", 5. reflexivity.
Defined.

Lemma foldr_add_acc (l : list Z) (z : Z) :
  foldr Z.add z l = foldr Z.add 0 l + z.
Proof. induction l as [|x l IH]; simpl; [done | rewrite IH; lia]. Qed.

Lemma owned_amount_app (d : db) (extra : list ownership_row) (u : Z) (rarity : string) :
  owned_amount (with_user_waifus (λ l, (l ++ extra)%list) d) u rarity
  = owned_amount d u rarity
    + owned_amount (with_user_waifus (λ _, extra) d) u rarity.
Proof.
  unfold owned_amount, owned_of_rarity. simpl.
  rewrite List.filter_app, fmap_app, foldr_app.
  apply foldr_add_acc.
Qed.

Lemma owned_bound_nonneg (d : db) (u : Z) (rarity : string) :
  (0 ≤ owned_bound d u rarity)%Z.
Proof.
  unfold owned_bound.
  induction (owned_of_rarity d u rarity) as [|uw l IH]; [done |].
  rewrite fmap_cons. cbn [foldr]. lia.
Qed.

Lemma owned_bound_app (d : db) (extra : list ownership_row) (u : Z) (rarity : string) :
  owned_bound (with_user_waifus (λ l, (l ++ extra)%list) d) u rarity
  = owned_bound d u rarity
    + owned_bound (with_user_waifus (λ _, extra) d) u rarity.
Proof.
  unfold owned_bound, owned_of_rarity. simpl.
  rewrite List.filter_app, fmap_app, foldr_app.
  apply foldr_add_acc.
Qed.

(** X19. What one more ownership row does to [get_user_rarity_count]: a
    row of the user whose card is in the catalog with the rarity asked for
    adds its amount (nothing when the amount is not set); a row of another
    user, of a card of another rarity, or of a card that is not in the
    catalog changes nothing.  The amounts that count, the new row's
    included, add up in absolute value within the 64-bit range, where
    [SUM] cannot overflow. *)
Theorem get_user_rarity_count_new_row (d : db) (row : ownership_row)
    (user_id : Z) (rarity : string) :
  let d' := with_user_waifus (λ l, (l ++ [row])%list) d in
  let matches :=
    bool_decide (uw_user_id row = user_id
                 ∧ card_rarity <$> waifu_cards d !! uw_waifu_id row
                   = Some (Some rarity)) in
  owned_bound d' user_id rarity < 2 ^ 63 →
  ∃ n, get_user_rarity_count user_id rarity d = Ok (n, d)
       ∧ get_user_rarity_count user_id rarity d'
         = Ok (n + (if matches then default 0 (uw_amount row) else 0), d').
Proof.
  intros d' matches Hbound. exists (owned_amount d user_id rarity).
  split.
  - apply get_user_rarity_count_run.
    unfold d' in Hbound. rewrite owned_bound_app in Hbound.
    pose proof (owned_bound_nonneg (with_user_waifus (λ _, [row]) d) user_id rarity).
    lia.
  - rewrite get_user_rarity_count_run by exact Hbound. do 2 f_equal.
    unfold d'. rewrite owned_amount_app. f_equal.
    unfold owned_amount, owned_of_rarity. simpl. fold matches.
    destruct matches; simpl; lia.
Qed.

Lemma get_user_rarity_count_new_row_witness :
  ∃ n, get_user_rarity_count 1 "Rare" collection_db = Ok (n, collection_db)
       ∧ get_user_rarity_count 1 "Rare"
           (with_user_waifus
              (λ l, (l ++ [ {| uw_user_id := 1; uw_waifu_id := 10;
                               uw_amount := Some 6 |} ])%list) collection_db)
         = Ok (n + 6,
               with_user_waifus
                 (λ l, (l ++ [ {| uw_user_id := 1; uw_waifu_id := 10;
                                  uw_amount := Some 6 |} ])%list) collection_db).
Proof.
  apply (get_user_rarity_count_new_row collection_db
           {| uw_user_id := 1; uw_waifu_id := 10; uw_amount := Some 6 |} 1 "Rare").
  by vm_compute.
Defined.

(** * Groups and the event log *)

Import Bookkeeping.

(** X20. [add_group] is insert-or-ignore and [get_total_groups] counts the
    chats: a chat not yet known is stored with its title and raises the
    count by one; for a chat already known nothing changes at all, its
    stored title included.  The log is never touched. *)
Theorem add_group_counts_new_chats (j : journal) (now : string) (chat_id : Z)
    (new_title : option string) :
  (groups j !! chat_id = None →
   groups (add_group now chat_id new_title j) !! chat_id
   = Some {| title := new_title; added_at := Some now |}
   ∧ get_total_groups (add_group now chat_id new_title j) = get_total_groups j + 1)
  ∧ (is_Some (groups j !! chat_id) → add_group now chat_id new_title j = j)
  ∧ logs (add_group now chat_id new_title j) = logs j.
Proof.
  split; [| split; [| done]].
  - intros Hnone. unfold add_group, get_total_groups. simpl. rewrite Hnone.
    split; [apply lookup_insert_eq |].
    rewrite map_size_insert_None by done. lia.
  - intros [row Hrow]. destruct j as [g l q]. unfold add_group. simpl in *.
    by rewrite Hrow.
Qed.

Lemma add_group_counts_new_chats_witness :
  get_total_groups (add_group "2024-01-01 00:00:00" (-100) (Some "Waifus") empty_journal)
  = get_total_groups empty_journal + 1
  ∧ add_group "2024-01-02 00:00:00" (-100) (Some "Renamed")
      (add_group "2024-01-01 00:00:00" (-100) (Some "Waifus") empty_journal)
    = add_group "2024-01-01 00:00:00" (-100) (Some "Waifus") empty_journal.
Proof.
  split.
  - destruct (add_group_counts_new_chats empty_journal "2024-01-01 00:00:00"
                (-100) (Some "Waifus")) as [Hnew _].
    apply Hnew. reflexivity.
  - destruct (add_group_counts_new_chats
                (add_group "2024-01-01 00:00:00" (-100) (Some "Waifus") empty_journal)
                "2024-01-02 00:00:00" (-100) (Some "Renamed")) as (_ & Hold & _).
    apply Hold. by eexists.
Defined.

Lemma foldr_max_ge (l : list Z) (x : Z) : x ∈ l → (x ≤ foldr Z.max 0 l)%Z.
Proof.
  induction l as [|y l IH]; intros Hin; [by apply elem_of_nil in Hin |].
  apply elem_of_cons in Hin as [-> | Hin]; simpl; [lia |].
  specialize (IH Hin). lia.
Qed.

(** X21. [log_event] only appends: the log afterwards is the log before
    followed by one row holding the arguments, whose [id] is greater than
    the [id] of every earlier row, so that distinct keys stay distinct;
    the groups are not touched. *)
Theorem log_event_appends (j : journal) (now kind : string)
    (user_id chat_id : option Z) (text : option string) :
  ∃ row,
    logs (log_event now kind user_id chat_id text j) = (logs j ++ [row])%list
    ∧ event_type row = kind ∧ log_user_id row = user_id
    ∧ log_chat_id row = chat_id ∧ details row = text
    ∧ timestamp row = Some now
    ∧ (∀ old, old ∈ logs j → (log_id old < log_id row)%Z)
    ∧ (NoDup (log_id <$> logs j) →
       NoDup (log_id <$> logs (log_event now kind user_id chat_id text j)))
    ∧ groups (log_event now kind user_id chat_id text j) = groups j.
Proof.
  eexists. split; [reflexivity |]. repeat (split; [reflexivity |]).
  assert (Hlt : ∀ old, old ∈ logs j → (log_id old < next_log_id j)%Z).
  { intros old Hold. unfold next_log_id.
    pose proof (foldr_max_ge (log_id <$> logs j) (log_id old)
                  (list_elem_of_fmap_2 log_id _ _ Hold)). lia. }
  split; [exact Hlt |]. split; [| reflexivity].
  intros Hnd. simpl. rewrite fmap_app. apply NoDup_app.
  split; [done |]. split; [| apply NoDup_singleton].
  intros id Hid Hnew. apply list_elem_of_singleton in Hnew. subst id.
  apply list_elem_of_fmap in Hid as (old & Heq & Hold).
  specialize (Hlt old Hold). simpl in Heq. lia.
Qed.

(** * The balance command *)

Import Handlers.

(** X22. For a sender without a row in [users], [balance_cmd] replies with
    a balance of zeros and [Never] as the last claim, and leaves the store
    alone. *)
Theorem balance_cmd_unknown_user (d : db) (user_id : Z) :
  users d !! user_id = None →
  balance_cmd user_id d
  = Ok ("💎 Your crystal balance:" ++ newline ++ newline
        ++ "• Daily: 0" ++ newline ++ "• Weekly: 0" ++ newline
        ++ "• Monthly: 0" ++ newline ++ "• Total: 0" ++ newline
        ++ "⏰ Last claim: Never", d).
Proof.
  intros Hnone. unfold balance_cmd.
  rewrite (bind_ok _ _ _ _ _ (get_crystals_absent d user_id Hnone)).
  reflexivity.
Qed.

Lemma balance_cmd_unknown_user_witness :
  balance_cmd 7 empty_db
  = Ok ("💎 Your crystal balance:" ++ newline ++ newline
        ++ "• Daily: 0" ++ newline ++ "• Weekly: 0" ++ newline
        ++ "• Monthly: 0" ++ newline ++ "• Total: 0" ++ newline
        ++ "⏰ Last claim: Never", empty_db).
Proof. apply (balance_cmd_unknown_user empty_db 7). reflexivity. Defined.

Lemma latest_not_empty (claims : list (option string)) (m : string) :
  latest claims = Some m → m ≠ "" ∧ Some m ∈ claims.
Proof.
  intros Hm. pose proof (latest_spec claims) as Hspec. rewrite Hm in Hspec.
  destruct Hspec as [Hin _]. apply non_empty_elem in Hin. tauto.
Qed.

(** X23. What [balance_cmd] shows as the last claim, for a sender with a
    row: [Never] when each of the three claim columns is NULL or the empty
    string, and otherwise the latest of the stored timestamps that are not
    empty, which is then one of the stored ones; the four lines before it
    print the counters and their sum. *)
Theorem balance_cmd_last_claim (d : db) (user_id : Z) (r : user_row) :
  users d !! user_id = Some r →
  ∃ shown,
    balance_cmd user_id d
    = Ok ("💎 Your crystal balance:" ++ newline ++ newline
          ++ "• Daily: " ++ str_of_int (daily_crystals r) ++ newline
          ++ "• Weekly: " ++ str_of_int (weekly_crystals r) ++ newline
          ++ "• Monthly: " ++ str_of_int (monthly_crystals r) ++ newline
          ++ "• Total: "
          ++ str_of_int (daily_crystals r + weekly_crystals r + monthly_crystals r)
          ++ newline ++ "⏰ Last claim: " ++ shown, d)
    ∧ ((∀ c, get_claim c r = None ∨ get_claim c r = Some "") → shown = "Never")
    ∧ ((∃ c t, get_claim c r = Some t ∧ t ≠ "") →
       shown ≠ "" ∧ (∃ c, get_claim c r = Some shown)
       ∧ ∀ c t, get_claim c r = Some t → String.leb t shown = true).
Proof.
  intros Hrow.
  set (claims := [daily_claim r; weekly_claim r; monthly_claim r]).
  assert (Hcols : ∀ t, Some t ∈ claims ↔ ∃ c, get_claim c r = Some t).
  { intros t. unfold claims. rewrite !elem_of_cons, elem_of_nil. split.
    - intros [H | [H | [H | []]]];
        [exists DailyClaim | exists WeeklyClaim | exists MonthlyClaim]; done.
    - intros [[] H]; simpl in H; auto. }
  exists (if truthy (latest claims) then default "" (latest claims) else "Never").
  split; [| split].
  - unfold balance_cmd.
    rewrite (bind_ok _ _ _ _ _ (get_crystals_present d user_id r Hrow)).
    reflexivity.
  - intros Hall. unfold claims.
    rewrite (latest_unset (daily_claim r) (weekly_claim r) (monthly_claim r)
               (Hall DailyClaim) (Hall WeeklyClaim) (Hall MonthlyClaim)).
    done.
  - intros (c & t & Hc & Hne).
    assert (Hin : t ∈ non_empty (non_null claims)).
    { apply non_empty_elem. split; [| done]. apply Hcols. by exists c. }
    pose proof (latest_spec claims) as Hspec.
    destruct (latest claims) as [m|] eqn:Hm.
    + destruct (latest_not_empty claims m Hm) as [Hm_ne Hm_in].
      simpl. apply String.eqb_neq in Hm_ne as Hm_eqb. rewrite Hm_eqb. simpl.
      split; [done |]. split; [by apply Hcols |].
      intros c' t' Hc'. destruct (decide (t' = "")) as [-> | Hne'].
      * by destruct m.
      * apply Hspec. apply non_empty_elem. split; [| done].
        apply Hcols. by exists c'.
    + unfold latest_of in Hspec. rewrite Hspec in Hin.
      by apply elem_of_nil in Hin.
Qed.

Lemma balance_cmd_last_claim_witness :
  ∃ shown,
    balance_cmd 42 claimed_db
    = Ok ("💎 Your crystal balance:" ++ newline ++ newline
          ++ "• Daily: " ++ str_of_int 3 ++ newline
          ++ "• Weekly: " ++ str_of_int 2 ++ newline
          ++ "• Monthly: " ++ str_of_int 0 ++ newline
          ++ "• Total: " ++ str_of_int (3 + 2 + 0)
          ++ newline ++ "⏰ Last claim: " ++ shown, claimed_db)
    ∧ shown ≠ "".
Proof.
  destruct (balance_cmd_last_claim claimed_db 42 claimed_row) as
    (shown & Hrun & _ & Hset); [reflexivity |].
  exists shown. split; [exact Hrun |].
  apply Hset. exists DailyClaim, "2024-01-03T09:30:00". split; [reflexivity | discriminate].
Defined.

(** * Schema bootstrap *)

Import Bootstrap.

Lemma add_missing_column_run (s : schema) (cols : list column) (n : string) :
  users_table s = Some cols →
  _add_missing_column n s
  = if py_in n cols.*1 then Ok (tt, s)
    else if existsb (ident_eqb n) cols.*1 then Raise OperationalError
    else Ok (tt, with_users_table
                   (Some (cols ++ [(n, if String.eqb n "first_logged"
                                       then "INTEGER DEFAULT 0" else "TEXT")])%list) s).
Proof.
  intros Hcols. unfold _add_missing_column, mbind, Boot_bind.
  rewrite Hcols. simpl. destruct (py_in n cols.*1); simpl; [done |].
  destruct (String.eqb n "first_logged"); unfold alter_users_add_column;
    rewrite Hcols; by destruct (existsb (ident_eqb n) cols.*1).
Qed.

Lemma py_in_elem (n : string) (l : list string) : py_in n l = true ↔ n ∈ l.
Proof.
  unfold py_in. rewrite existsb_exists, list_elem_of_In. split.
  - intros (x & Hx & Heq). apply String.eqb_eq in Heq. by subst.
  - intros Hin. exists n. split; [done | apply String.eqb_refl].
Qed.

(** Every step of the loop that returns leaves the columns it found in
    place and the column it was called for present. *)
Lemma add_missing_column_post (s s' : schema) (cols : list column) (n : string) :
  users_table s = Some cols →
  _add_missing_column n s = Ok (tt, s') →
  ∃ added,
    s' = with_users_table (Some (cols ++ added)%list) s
    ∧ n ∈ (cols ++ added)%list.*1
    ∧ Forall (λ c, c.1 = n) added.
Proof.
  intros Hcols. rewrite (add_missing_column_run s cols n Hcols).
  destruct (py_in n cols.*1) eqn:Hin.
  - intros [= <-]. exists []. rewrite app_nil_r. split; [| split; [| done]].
    + destruct s. simpl in Hcols. by subst.
    + by apply py_in_elem.
  - destruct (existsb (ident_eqb n) cols.*1); [done |].
    intros [= <-]. eexists. split; [reflexivity |]. split.
    + rewrite fmap_app. apply elem_of_app. right. apply list_elem_of_here.
    + by repeat constructor.
Qed.

Lemma for_each_column_post (ns : list string) (s s' : schema) (cols : list column) :
  users_table s = Some cols →
  for_each_column ns _add_missing_column s = Ok (tt, s') →
  ∃ added,
    s' = with_users_table (Some (cols ++ added)%list) s
    ∧ (∀ n, n ∈ ns → n ∈ (cols ++ added)%list.*1)
    ∧ Forall (λ c, c.1 ∈ ns) added.
Proof.
  revert s cols. induction ns as [|n ns IH]; intros s cols Hcols.
  - intros [= <-]. exists []. rewrite app_nil_r. split; [| split; [| done]].
    + destruct s. simpl in Hcols. by subst.
    + intros n Hn. by apply elem_of_nil in Hn.
  - cbn [for_each_column]. unfold mbind at 1, Boot_bind.
    destruct (_add_missing_column n s) as [[[] s1]|e] eqn:Hstep; [| done].
    destruct (add_missing_column_post s s1 cols n Hcols Hstep)
      as (added1 & -> & Hn & Hadded1).
    intros Hrest.
    destruct (IH (with_users_table (Some (cols ++ added1)%list) s)
                (cols ++ added1)%list eq_refl Hrest)
      as (added2 & -> & Hall & Hadded2).
    exists (added1 ++ added2)%list. rewrite app_assoc. split; [done |]. split.
    + intros n' Hn'. apply elem_of_cons in Hn' as [-> | Hn']; [| by apply Hall].
      rewrite fmap_app. apply elem_of_app. by left.
    + apply Forall_app. split.
      * eapply Forall_impl; [exact Hadded1 |]. intros c ->. apply list_elem_of_here.
      * eapply Forall_impl; [exact Hadded2 |]. intros c Hc.
        by apply list_elem_of_further.
Qed.

Lemma existsb_ident_app (n : string) (l1 l2 : list string) :
  existsb (ident_eqb n) (l1 ++ l2)%list
  = existsb (ident_eqb n) l1 || existsb (ident_eqb n) l2.
Proof. apply existsb_app. Qed.

Lemma for_each_column_succeeds (ns : list string) (s : schema) (cols : list column) :
  users_table s = Some cols →
  NoDup (lower <$> ns) →
  (∀ n, n ∈ ns → py_in n cols.*1 = true ∨ existsb (ident_eqb n) cols.*1 = false) →
  ∃ s', for_each_column ns _add_missing_column s = Ok (tt, s').
Proof.
  revert s cols. induction ns as [|n ns IH]; intros s cols Hcols Hnd Hok.
  - by eexists.
  - rewrite fmap_cons in Hnd. apply NoDup_cons in Hnd as [Hn Hnd].
    cbn [for_each_column]. unfold mbind at 1, Boot_bind.
    rewrite (add_missing_column_run s cols n Hcols).
    destruct (py_in n cols.*1) eqn:Hin.
    + apply (IH s cols Hcols Hnd). intros n' Hn'. apply Hok.
      by apply list_elem_of_further.
    + destruct (Hok n (list_elem_of_here _ _)) as [Hyes | Hno]; [congruence |].
      rewrite Hno.
      match goal with
      | |- ∃ _, for_each_column _ _ (with_users_table (Some ?c) ?s0) = _ =>
          apply (IH (with_users_table (Some c) s0) c eq_refl Hnd)
      end.
      intros n' Hn'.
      destruct (Hok n' (list_elem_of_further _ _ _ Hn')) as [Hyes' | Hno'].
      * left. apply py_in_elem. rewrite fmap_app. apply elem_of_app. left.
        by apply py_in_elem.
      * right. rewrite fmap_app, existsb_ident_app, Hno'. simpl.
        rewrite orb_false_r. unfold ident_eqb. apply String.eqb_neq.
        intros Heq. apply Hn. rewrite <- Heq. by apply list_elem_of_fmap_2.
Qed.

Lemma for_each_column_noop (ns : list string) (s : schema) (cols : list column) :
  users_table s = Some cols →
  (∀ n, n ∈ ns → n ∈ cols.*1) →
  for_each_column ns _add_missing_column s = Ok (tt, s).
Proof.
  intros Hcols. induction ns as [|n ns IH]; intros Hall; [done |].
  cbn [for_each_column]. unfold mbind at 1, Boot_bind.
  rewrite (add_missing_column_run s cols n Hcols).
  rewrite (proj2 (py_in_elem n cols.*1) (Hall n (list_elem_of_here _ _))).
  apply IH. intros n' Hn'. by apply Hall, list_elem_of_further.
Qed.

Lemma for_each_column_raises (ns : list string) (s : schema) (cols : list column)
    (n : string) :
  users_table s = Some cols →
  n ∈ ns →
  py_in n cols.*1 = false →
  existsb (ident_eqb n) cols.*1 = true →
  for_each_column ns _add_missing_column s = Raise OperationalError.
Proof.
  revert s cols. induction ns as [|a ns IH]; intros s cols Hcols Hn Hnot Hvar.
  - by apply elem_of_nil in Hn.
  - cbn [for_each_column]. unfold mbind at 1, Boot_bind.
    destruct (_add_missing_column a s) as [[[] s1]|[]] eqn:Hstep; [| done].
    destruct (decide (a = n)) as [-> | Hne].
    + rewrite (add_missing_column_run s cols n Hcols), Hnot, Hvar in Hstep.
      discriminate.
    + destruct (add_missing_column_post s s1 cols a Hcols Hstep)
        as (added & -> & _ & Hadded).
      apply elem_of_cons in Hn as [-> | Hn]; [done |].
      apply (IH (with_users_table (Some (cols ++ added)%list) s)
               (cols ++ added)%list eq_refl Hn).
      * destruct (py_in n (cols ++ added)%list.*1) eqn:Hin; [| done].
        apply py_in_elem in Hin. rewrite fmap_app in Hin.
        apply elem_of_app in Hin as [Hin | Hin].
        -- apply py_in_elem in Hin. congruence.
        -- apply list_elem_of_fmap in Hin as (c & -> & Hc).
           rewrite Forall_forall in Hadded. by specialize (Hadded c Hc).
      * by rewrite fmap_app, existsb_ident_app, Hvar.
Qed.

Lemma legacy_columns_distinct : NoDup (lower <$> legacy_columns).
Proof. apply (bool_decide_unpack _). by vm_compute. Qed.

Lemma users_columns_patchable : ∀ n, n ∈ legacy_columns → n ∈ users_columns.*1.
Proof.
  intros n Hn. unfold legacy_columns in Hn.
  rewrite !elem_of_cons, elem_of_nil in Hn.
  destruct Hn as [-> | [-> | [-> | [-> | []]]]]; apply py_in_elem; reflexivity.
Qed.

Lemma create_if_not_exists_default (declared : list column) (t : option (list column)) :
  create_if_not_exists declared t = Some (default declared t).
Proof. by destruct t. Qed.

(** X24. The bootstrap patches and never drops.  On a schema whose [users]
    table, if there is one, has each of the four legacy columns under
    exactly its name or under no spelling at all, [__init__] returns; all
    five tables then exist, a table that existed keeps its columns, in
    their order, [users] gets at its end only columns among the four, and
    the four are all there. *)
Theorem init_patches_schema (s : schema) :
  (∀ cols, users_table s = Some cols → patchable cols.*1) →
  ∃ s' added,
    init s = Ok (tt, s')
    ∧ users_table s' = Some (default users_columns (users_table s) ++ added)%list
    ∧ Forall (λ c, c.1 ∈ legacy_columns) added
    ∧ (∀ n, n ∈ legacy_columns → n ∈ table_info_names (users_table s'))
    ∧ groups_table s' = Some (default groups_columns (groups_table s))
    ∧ logs_table s' = Some (default logs_columns (logs_table s))
    ∧ user_profiles_table s'
      = Some (default user_profiles_columns (user_profiles_table s))
    ∧ user_rarities_table s'
      = Some (default user_rarities_columns (user_rarities_table s)).
Proof.
  intros Hpatch.
  set (s0 := {| users_table := create_if_not_exists users_columns (users_table s);
                groups_table := create_if_not_exists groups_columns (groups_table s);
                logs_table := create_if_not_exists logs_columns (logs_table s);
                user_profiles_table := user_profiles_table s;
                user_rarities_table := user_rarities_table s |}).
  assert (Hcols0 : users_table s0 = Some (default users_columns (users_table s)))
    by apply create_if_not_exists_default.
  destruct (for_each_column_succeeds legacy_columns s0 _ Hcols0
              legacy_columns_distinct) as [s1 Hloop].
  { intros n Hn. destruct (users_table s) as [cols|] eqn:Hu.
    - apply (Hpatch cols eq_refl). by apply list_elem_of_In.
    - left. apply (proj2 (py_in_elem n users_columns.*1)).
      by apply users_columns_patchable. }
  destruct (for_each_column_post _ _ _ _ Hcols0 Hloop) as (added & -> & Hall & Hadded).
  eexists _, added. split.
  { unfold init, setup, mbind, Boot_bind. fold s0.
    rewrite Hloop. reflexivity. }
  simpl. rewrite !create_if_not_exists_default. auto 10.
Qed.

Lemma init_patches_schema_witness :
  ∃ s' added,
    init {| users_table := Some [("user_id", "INTEGER PRIMARY KEY");
                                 ("weekly_claim", "TEXT")];
            groups_table := None; logs_table := None;
            user_profiles_table := None; user_rarities_table := None |}
    = Ok (tt, s')
    ∧ users_table s'
      = Some ([("user_id", "INTEGER PRIMARY KEY"); ("weekly_claim", "TEXT")]
              ++ added)%list
    ∧ Forall (λ c, c.1 ∈ legacy_columns) added.
Proof.
  destruct (init_patches_schema
              {| users_table := Some [("user_id", "INTEGER PRIMARY KEY");
                                      ("weekly_claim", "TEXT")];
                 groups_table := None; logs_table := None;
                 user_profiles_table := None; user_rarities_table := None |})
    as (s' & added & Hrun & Husers & Hadded & _).
  { intros cols [= <-] n Hn. simpl in Hn.
    destruct Hn as [<- | [<- | [<- | [<- | []]]]]; vm_compute; auto. }
  exists s', added. auto.
Defined.

Lemma init_fixed (u g l p r : list column) :
  (∀ n, n ∈ legacy_columns → n ∈ u.*1) →
  init {| users_table := Some u; groups_table := Some g; logs_table := Some l;
          user_profiles_table := Some p; user_rarities_table := Some r |}
  = Ok (tt, {| users_table := Some u; groups_table := Some g; logs_table := Some l;
               user_profiles_table := Some p; user_rarities_table := Some r |}).
Proof.
  intros Hall. unfold init, setup. unfold mbind, Boot_bind.
  cbn [users_table groups_table logs_table user_profiles_table
       user_rarities_table create_if_not_exists].
  by rewrite (for_each_column_noop legacy_columns
                {| users_table := Some u; groups_table := Some g;
                   logs_table := Some l; user_profiles_table := Some p;
                   user_rarities_table := Some r |} u eq_refl Hall).
Qed.

(** X25. Running the bootstrap again changes nothing: on the schema a
    first [__init__] has produced, a second one returns with the schema
    as it is. *)
Theorem init_idempotent (s s' : schema) :
  init s = Ok (tt, s') → init s' = Ok (tt, s').
Proof.
  unfold init at 1, setup, mbind, Boot_bind.
  set (s0 := {| users_table := create_if_not_exists users_columns (users_table s);
                groups_table := create_if_not_exists groups_columns (groups_table s);
                logs_table := create_if_not_exists logs_columns (logs_table s);
                user_profiles_table := user_profiles_table s;
                user_rarities_table := user_rarities_table s |}).
  destruct (for_each_column legacy_columns _add_missing_column s0)
    as [[[] s1]|e] eqn:Hloop; [| done].
  assert (Hcols0 : users_table s0 = Some (default users_columns (users_table s)))
    by apply create_if_not_exists_default.
  destruct (for_each_column_post _ _ _ _ Hcols0 Hloop) as (added & -> & Hall & _).
  unfold setup_profile_tables. intros [= <-].
  cbn [with_users_table s0 users_table groups_table logs_table
       user_profiles_table user_rarities_table].
  rewrite !create_if_not_exists_default.
  by apply init_fixed.
Qed.

Lemma init_idempotent_witness :
  init {| users_table := Some users_columns; groups_table := Some groups_columns;
          logs_table := Some logs_columns;
          user_profiles_table := Some user_profiles_columns;
          user_rarities_table := Some user_rarities_columns |}
  = Ok (tt, {| users_table := Some users_columns;
               groups_table := Some groups_columns;
               logs_table := Some logs_columns;
               user_profiles_table := Some user_profiles_columns;
               user_rarities_table := Some user_rarities_columns |}).
Proof. apply (init_idempotent no_tables). reflexivity. Defined.

(** X26. The bootstrap looks for a column under exactly its name, the
    engine knows columns without regard to letter case: when [users] has
    one of the four legacy columns under another spelling only, the
    [ALTER TABLE] is refused, and [setup] and with it [__init__] raise
    [sqlite3.OperationalError]. *)
Theorem init_refuses_other_spelling (s : schema) (cols : list column) (n : string) :
  users_table s = Some cols →
  n ∈ legacy_columns →
  n ∉ cols.*1 →
  existsb (ident_eqb n) cols.*1 = true →
  setup s = Raise OperationalError ∧ init s = Raise OperationalError.
Proof.
  intros Hcols Hn Hnot Hvar.
  assert (Hsetup : setup s = Raise OperationalError).
  { unfold setup. unfold mbind at 1, Boot_bind.
    apply (for_each_column_raises legacy_columns _ cols n); [| done | | done].
    - simpl. by rewrite Hcols.
    - destruct (py_in n cols.*1) eqn:Hin; [| done].
      by apply py_in_elem in Hin. }
  split; [done |]. unfold init, mbind, Boot_bind. by rewrite Hsetup.
Qed.

Lemma init_refuses_other_spelling_witness :
  init {| users_table := Some [("user_id", "INTEGER PRIMARY KEY");
                               ("Daily_Claim", "TEXT")];
          groups_table := None; logs_table := None;
          user_profiles_table := None; user_rarities_table := None |}
  = Raise OperationalError.
Proof.
  apply (init_refuses_other_spelling _
           [("user_id", "INTEGER PRIMARY KEY"); ("Daily_Claim", "TEXT")]
           "daily_claim").
  - reflexivity.
  - apply list_elem_of_here.
  - simpl. rewrite !elem_of_cons, elem_of_nil. intros [H | [H | []]]; discriminate.
  - reflexivity.
Defined.
